(** * Evaluation engine of the model-comparison backend

    A shallow embedding of [backend/evaluation/metrics.py],
    [backend/evaluation/benchmark_runner.py],
    [backend/evaluation/leaderboard.py] and of the connector lookup of
    [backend/models/model_manager.py], with the properties of the
    evaluation engine proved over it.

    Conventions of the embedding:
    - a Python [float] (and an [int] used in float arithmetic) is an exact
      rational of type [Q]; rounding is not modelled, and equalities between
      scores are stated with [==];
    - a Python [str] is a [string]; [None] is the [None] of an [option];
    - a Python [dict] whose iteration order matters is an insertion-ordered
      association list ([odict]); the result store, which is only looked up
      by key, is a [gmap];
    - code that can raise returns a [result], the error being the name of
      the Python exception. *)

From Stdlib Require Import QArith Qminmax Lia Lqa List Sorted Ascii.
From stdpp Require Import base list strings gmap.

(** ** Python primitives *)

Module Py.

(** Exceptions that the modelled code can raise. *)
Inductive exn : Type :=
| ZeroDivisionError
| AttributeError
| TypeError
| Exception.

Definition result (A : Type) : Type := (exn + A)%type.

Definition ret {A : Type} (a : A) : result A := inr a.

Definition raise {A : Type} (e : exn) : result A := inl e.

Definition bind {A B : Type} (m : result A) (k : A -> result B) : result B :=
  match m with
  | inl e => inl e
  | inr a => k a
  end.

Notation "'let*' x ':=' m 'in' k" := (bind m (fun x => k))
  (at level 10, x name, m at level 100, k at level 200).

(** [for x in l: ...] with a body that may raise and an accumulator. *)
Fixpoint for_each {A S : Type} (l : list A) (body : S -> A -> result S) (s : S)
  : result S :=
  match l with
  | [] => ret s
  | x :: l' => let* s' := body s x in for_each l' body s'
  end.

(** A list comprehension whose element expression may raise. *)
Fixpoint comprehension {A B : Type} (f : A -> result B) (l : list A)
  : result (list B) :=
  match l with
  | [] => ret []
  | x :: l' => let* y := f x in let* ys := comprehension f l' in ret (y :: ys)
  end.

(** *** Numbers *)

Definition Qlt_bool (x y : Q) : bool := negb (Qle_bool y x).

(** [a / b] on floats: raises when the divisor is zero. *)
Definition truediv (a b : Q) : result Q :=
  if Qeq_bool b 0 then raise ZeroDivisionError else ret (a / b)%Q.

(** Two-argument [max(a, b)] and [min(a, b)]: the first argument is kept
    unless the second is strictly better. *)
Definition max2 (a b : Q) : Q := if Qlt_bool a b then b else a.
Definition min2 (a b : Q) : Q := if Qlt_bool b a then b else a.

(** [sum(l)], [max(l)] and [min(l)] on a list; the last two are only called
    on non-empty lists and are given the head separately. *)
Definition sum (l : list Q) : Q := fold_left Qplus l 0%Q.
Definition max_list (x : Q) (l : list Q) : Q := fold_left max2 l x.
Definition min_list (x : Q) (l : list Q) : Q := fold_left min2 l x.

Definition of_nat (n : nat) : Q := inject_Z (Z.of_nat n).

(** *** Strings *)

(** The characters [str.split()] and [str.strip()] treat as white space. *)
Definition isspace (c : ascii) : bool :=
  let n := nat_of_ascii c in
  ((9 <=? n) && (n <=? 13) || (28 <=? n) && (n <=? 32))%nat.

(** [s.split()]: the maximal runs of characters that are not white space. *)
Fixpoint split (s : string) : list string :=
  match s with
  | EmptyString => []
  | String c s' =>
      let rest := split s' in
      if isspace c then rest
      else
        match s' with
        | EmptyString => [String c EmptyString]
        | String c' _ =>
            if isspace c' then String c EmptyString :: rest
            else
              match rest with
              | w :: rest' => String c w :: rest'
              | [] => [String c EmptyString]
              end
        end
  end.

(** [s.split(sep)] for a one-character separator. *)
Fixpoint split_on (sep : ascii) (s : string) : list string :=
  match s with
  | EmptyString => [EmptyString]
  | String c s' =>
      let rest := split_on sep s' in
      if Ascii.eqb c sep then EmptyString :: rest
      else
        match rest with
        | w :: rest' => String c w :: rest'
        | [] => [String c EmptyString]
        end
  end.

Fixpoint lstrip (s : string) : string :=
  match s with
  | EmptyString => EmptyString
  | String c s' => if isspace c then lstrip s' else s
  end.

Fixpoint rstrip (s : string) : string :=
  match s with
  | EmptyString => EmptyString
  | String c s' =>
      match rstrip s' with
      | EmptyString => if isspace c then EmptyString else String c EmptyString
      | r => String c r
      end
  end.

Definition strip (s : string) : string := rstrip (lstrip s).

(** [s.endswith(suffix)]: some tail of [s] is [suffix]. *)
Fixpoint endswith (s suffix : string) : bool :=
  String.eqb s suffix ||
  match s with
  | EmptyString => false
  | String _ s' => endswith s' suffix
  end.

(** [needle in s]: some tail of [s] starts with [needle]. *)
Fixpoint contains (needle s : string) : bool :=
  String.prefix needle s ||
  match s with
  | EmptyString => false
  | String _ s' => contains needle s'
  end.

Definition lower_ascii (c : ascii) : ascii :=
  let n := nat_of_ascii c in
  if ((65 <=? n) && (n <=? 90))%nat then ascii_of_nat (n + 32) else c.

Fixpoint lower (s : string) : string :=
  match s with
  | EmptyString => EmptyString
  | String c s' => String (lower_ascii c) (lower s')
  end.

(** Truth value of a [str] or [None]. *)
Definition truthy (o : option string) : bool :=
  match o with
  | Some (String _ _) => true
  | _ => false
  end.

(** *** Dictionaries

    An insertion-ordered dictionary with string keys: [d[k] = v] replaces the
    value of an existing key where it stands and appends a new key at the
    end, so that iteration follows the order of first insertion. *)

Definition odict (V : Type) : Type := list (string * V).

Fixpoint od_get {V : Type} (k : string) (d : odict V) : option V :=
  match d with
  | [] => None
  | (k', v) :: d' => if String.eqb k k' then Some v else od_get k d'
  end.

Fixpoint od_set {V : Type} (k : string) (v : V) (d : odict V) : odict V :=
  match d with
  | [] => [(k, v)]
  | (k', v') :: d' =>
      if String.eqb k k' then (k, v) :: d' else (k', v') :: od_set k v d'
  end.

(** [k in d] *)
Definition od_mem {V : Type} (k : string) (d : odict V) : bool :=
  match od_get k d with
  | Some _ => true
  | None => false
  end.

Definition od_keys {V : Type} (d : odict V) : list string := map fst d.

(** [x in l] for a list of strings. *)
Definition mem (x : string) (l : list string) : bool :=
  existsb (String.eqb x) l.

(** *** Sorting

    [sorted(l, key=key, reverse=True)]: a stable sort by decreasing key.
    An element is inserted in front of the first element whose key is not
    greater than its own, so that elements with equal keys keep the order
    they have in [l]. *)

Fixpoint insert_desc {A : Type} (key : A -> Q) (x : A) (l : list A) : list A :=
  match l with
  | [] => [x]
  | y :: l' =>
      if Qlt_bool (key x) (key y) then y :: insert_desc key x l'
      else x :: l
  end.

Definition sorted_desc {A : Type} (key : A -> Q) (l : list A) : list A :=
  fold_right (insert_desc key) [] l.

End Py.

Import Py.

(** ** metrics.py: MetricsCalculator *)

Module MetricsCalculator.

Local Open Scope Q_scope.

Definition calculate_latency_score (latency : Q) : Q :=
  if Qle_bool latency 1 then 100
  else if Qle_bool 10 latency then 0
  else max2 0 (100 * (10 - latency) / 9).

Definition calculate_cost_score (cost : Q) (max_cost : Q) : result Q :=
  if Qle_bool cost 0 then ret 100
  else
    let* ratio := truediv cost max_cost in
    let normalized_cost := min2 ratio 1 in
    ret ((1 - normalized_cost) * 100).

(** The default value of the [max_cost] parameter. *)
Definition default_max_cost : Q := 0.1.

Definition calculate_context_utilization_score (prompt_length : nat) (max_context : Z)
  : result Q :=
  if (max_context <=? 0)%Z then ret 50
  else
    let* ratio := truediv (of_nat prompt_length) (inject_Z max_context) in
    let utilization := min2 ratio 1 in
    if Qle_bool 0.2 utilization && Qle_bool utilization 0.8 then ret 100
    else if Qlt_bool utilization 0.2 then ret (utilization * 500)
    else ret (max2 0 (100 - (utilization - 0.8) * 500)).

Definition _calculate_text_similarity (text1 text2 : string) : result Q :=
  let words1 : gset string := list_to_set (split (lower text1)) in
  let words2 : gset string := list_to_set (split (lower text2)) in
  if bool_decide (words1 = ∅) && bool_decide (words2 = ∅) then ret 1
  else if bool_decide (words1 = ∅) || bool_decide (words2 = ∅) then ret 0
  else
    let intersection := words1 ∩ words2 in
    let union := words1 ∪ words2 in
    truediv (of_nat (size intersection)) (of_nat (size union)).

(** [response] is [None] when the connector reports a failure; [reference]
    is [None] when the caller leaves it out. *)
Definition calculate_quality_score (response reference : option string) : result Q :=
  match response with
  | Some (String _ _ as response) =>
      let score := 50 in
      let length := length (split response) in
      let score :=
        if ((10 <=? length) && (length <=? 500))%nat then score + 20
        else if ((5 <=? length) && (length <? 10)
                 || (500 <? length) && (length <=? 1000))%nat then score + 10
        else score in
      let sentences := split_on "." response in
      let score := if (1 <? List.length sentences)%nat then score + 10 else score in
      let score :=
        if endswith (strip response) "." || endswith (strip response) "!"
           || endswith (strip response) "?"
        then score + 10 else score in
      let score :=
        if contains "I apologize" response || contains "I cannot" response
        then score - 10 else score in
      let* score :=
        match reference with
        | Some (String _ _ as reference) =>
            let* similarity := _calculate_text_similarity response reference in
            ret ((score + similarity * 100) / 2)
        | _ => ret score
        end in
      ret (min2 100 (max2 0 score))
  | _ => ret 0
  end.

Definition default_weights : gmap string Q :=
  <["latency" := 0.3]> (<["cost" := 0.2]> (<["quality" := 0.4]>
    (<["context_utilization" := 0.1]> ∅))).

(** The loop of [aggregate_scores]: the pair is
    [(total_score, total_weight)]. *)
Definition accumulate (weights : gmap string Q) (acc : Q * Q) (item : string * Q)
  : Q * Q :=
  let '(total_score, total_weight) := acc in
  let '(metric, score) := item in
  let weight := default 0.1 (weights !! metric) in
  (total_score + score * weight, total_weight + weight).

Definition aggregate_scores (scores : odict Q) (weights : option (gmap string Q))
  : result Q :=
  match scores with
  | [] => ret 0
  | _ =>
      let weights := default default_weights weights in
      let '(total_score, total_weight) :=
        fold_left (accumulate weights) scores (0, 0) in
      if Qlt_bool 0 total_weight then truediv total_score total_weight
      else ret 0
  end.

End MetricsCalculator.

Import MetricsCalculator.

(** ** Connectors and model_manager.py *)

Module ModelManager.

(** The dict a connector returns from [generate_response]. A field is
    [None] when the key is absent; [rd_response] is [Some None] when the key
    holds Python's [None], as it does after a failed call. *)
Record response_data : Type := {
  rd_response : option (option string);
  rd_latency : option Q;
  rd_tokens_used : option Z;
  rd_success : option bool;
  rd_error : option string
}.

(** The dict of [get_model_info], with the keys the runner reads. *)
Record model_info : Type := {
  mi_name : string;
  mi_provider : string;
  mi_max_context_length : option Z;
  mi_cost_per_1k_tokens : option Q
}.

(** The interface of [BaseModelConnector]. Both connectors of the repository
    catch every exception of the provider call and return a failure record,
    so [generate_response] is a total function; the runner passes it the
    prompt alone. *)
Record connector : Type := {
  generate_response : string -> response_data;
  get_model_info : model_info
}.

(** An entry of [ModelManager.models]. The constructor [connector_class]
    takes the API key and the model name, and may raise. *)
Record model_config : Type := {
  connector_class : string -> string -> result connector;
  api_key : option string;
  model_name : string;
  enabled : bool
}.

Definition _create_connector (models : gmap string model_config) (model_id : string)
  : option connector :=
  match models !! model_id with
  | None => None
  | Some model_data =>
      let key := default EmptyString (api_key model_data) in
      if negb (truthy (Some key)) then None
      else
        match connector_class model_data key (model_name model_data) with
        | inr c => Some c
        | inl _ => None
        end
  end.

Definition get_model_connector (models : gmap string model_config) (model_id : string)
  : option connector :=
  _create_connector models model_id.

End ModelManager.

Import ModelManager.

(** ** benchmark_runner.py: BenchmarkRunner *)

Module BenchmarkRunner.

Local Open Scope Q_scope.
Local Open Scope string_scope.

(** The dict stored under a metric name in a prompt result. Only the
    latency and cost entries have a ['raw_value']. *)
Record metric_data : Type := {
  md_raw_value : option Q;
  md_tokens_used : option Z;
  md_prompt_length : option nat;
  md_max_context : option Z;
  md_score : Q
}.

Record prompt_result : Type := {
  pr_prompt : string;
  pr_response : option string;
  pr_success : bool;
  pr_error : option string;
  pr_metrics : odict metric_data;
  pr_prompt_index : option nat
}.

(** The per-metric statistics of a model. *)
Record metric_agg : Type := {
  average_score : Q;
  min_score : Q;
  max_score : Q;
  count : nat;
  average_raw : option Q;
  min_raw : option Q;
  max_raw : option Q
}.

(** A value of the [aggregated] dict: the statistics of a metric, or the
    number stored under ['overall_score']. *)
Inductive agg_value : Type :=
| AggMetric (a : metric_agg)
| AggFloat (q : Q).

(** The dict of [_run_model_benchmark]. [mr_aggregated_metrics] is [None]
    when the key ['aggregated_metrics'] is absent. *)
Record model_result : Type := {
  mr_model_id : string;
  mr_model_info : model_info;
  mr_prompt_results : list prompt_result;
  mr_aggregated_metrics : option (odict agg_value)
}.

Record ranking_entry : Type := {
  re_model_id : string;
  re_score : Q
}.

Record summary : Type := {
  rankings : odict (list ranking_entry);
  best_performers : odict string;
  metric_averages : odict Q
}.

Record benchmark_run : Type := {
  br_id : string;
  br_timestamp : Q;
  br_prompts : list string;
  br_model_ids : list string;
  br_metrics : list string;
  br_results : odict model_result;
  br_summary : summary
}.

(** The state of a [BenchmarkRunner] object. *)
Record runner : Type := {
  model_manager : gmap string model_config;
  results_store : gmap string benchmark_run
}.

(** [response_data.get('response', '')] *)
Definition get_response (response_data : response_data) : option string :=
  default (Some EmptyString) (rd_response response_data).

Definition _evaluate_single_prompt (connector : connector) (prompt : string)
    (metrics : list string) (model_info : model_info) : result prompt_result :=
  let response_data := generate_response connector prompt in
  let calculated_metrics : odict metric_data := [] in
  let calculated_metrics :=
    if mem "latency" metrics then
      let latency_score :=
        calculate_latency_score (default 0 (rd_latency response_data)) in
      od_set "latency"
        {| md_raw_value := Some (default 0 (rd_latency response_data));
           md_tokens_used := None; md_prompt_length := None;
           md_max_context := None; md_score := latency_score |}
        calculated_metrics
    else calculated_metrics in
  let* calculated_metrics :=
    if mem "cost" metrics then
      let tokens_used := default 0%Z (rd_tokens_used response_data) in
      let cost_per_1k := default 0 (mi_cost_per_1k_tokens model_info) in
      let cost := (inject_Z tokens_used / 1000) * cost_per_1k in
      let* cost_score := calculate_cost_score cost default_max_cost in
      ret (od_set "cost"
             {| md_raw_value := Some cost; md_tokens_used := Some tokens_used;
                md_prompt_length := None; md_max_context := None;
                md_score := cost_score |}
             calculated_metrics)
    else ret calculated_metrics in
  let* calculated_metrics :=
    if mem "quality" metrics then
      let* quality_score :=
        calculate_quality_score (get_response response_data) None in
      ret (od_set "quality"
             {| md_raw_value := None; md_tokens_used := None;
                md_prompt_length := None; md_max_context := None;
                md_score := quality_score |}
             calculated_metrics)
    else ret calculated_metrics in
  let* calculated_metrics :=
    if mem "context_utilization" metrics then
      let prompt_length := length (split prompt) in
      let max_context := default 4096%Z (mi_max_context_length model_info) in
      let* context_score :=
        calculate_context_utilization_score prompt_length max_context in
      ret (od_set "context_utilization"
             {| md_raw_value := None; md_tokens_used := None;
                md_prompt_length := Some prompt_length;
                md_max_context := Some max_context;
                md_score := context_score |}
             calculated_metrics)
    else ret calculated_metrics in
  ret {| pr_prompt := prompt;
         pr_response := get_response response_data;
         pr_success := default false (rd_success response_data);
         pr_error := rd_error response_data;
         pr_metrics := calculated_metrics;
         pr_prompt_index := None |}.

(** [prompt_result['prompt_index'] = i] *)
Definition set_prompt_index (i : nat) (r : prompt_result) : prompt_result :=
  {| pr_prompt := pr_prompt r; pr_response := pr_response r;
     pr_success := pr_success r; pr_error := pr_error r;
     pr_metrics := pr_metrics r; pr_prompt_index := Some i |}.

Definition enumerate {A : Type} (l : list A) : list (nat * A) :=
  combine (seq 0 (length l)) l.

(** The inner loop of [_aggregate_prompt_results]: the metric dicts of the
    results that succeeded and hold [metric], in the order of the results. *)
Definition selected (metric : string) (prompt_results : list prompt_result)
  : list metric_data :=
  omap (fun r => if pr_success r then od_get metric (pr_metrics r) else None)
       prompt_results.

(** [data['average_score']] *)
Definition subscript_average_score (data : agg_value) : result Q :=
  match data with
  | AggMetric a => ret (average_score a)
  | AggFloat _ => raise TypeError
  end.

Definition aggregate_metric (prompt_results : list prompt_result)
    (aggregated : odict agg_value) (metric : string) : result (odict agg_value) :=
  let scores := map md_score (selected metric prompt_results) in
  let raw_values := omap md_raw_value (selected metric prompt_results) in
  match scores with
  | [] => ret aggregated
  | s :: scores' =>
      let* avg := truediv (sum scores) (of_nat (length scores)) in
      let* raws :=
        match raw_values with
        | [] => ret (None, None, None)
        | r :: raw_values' =>
            let* avg_raw := truediv (sum raw_values) (of_nat (length raw_values)) in
            ret (Some avg_raw, Some (min_list r raw_values'),
                 Some (max_list r raw_values'))
        end in
      ret (od_set metric
             (AggMetric
                {| average_score := avg;
                   min_score := min_list s scores';
                   max_score := max_list s scores';
                   count := length scores;
                   average_raw := raws.1.1;
                   min_raw := raws.1.2;
                   max_raw := raws.2 |})
             aggregated)
  end.

Definition _aggregate_prompt_results (prompt_results : list prompt_result)
    (metrics : list string) : result (odict agg_value) :=
  let* aggregated := for_each metrics (aggregate_metric prompt_results) [] in
  match aggregated with
  | [] => ret aggregated
  | _ =>
      let* metric_scores :=
        for_each aggregated
          (fun d '(metric, data) =>
             let* avg := subscript_average_score data in ret (od_set metric avg d))
          [] in
      let* overall_score := aggregate_scores metric_scores None in
      ret (od_set "overall_score" (AggFloat overall_score) aggregated)
  end.

Definition _run_model_benchmark (connector : connector) (prompts : list string)
    (metrics : list string) (model_id : string) : result model_result :=
  let model_info := get_model_info connector in
  let* prompt_results :=
    comprehension
      (fun '(i, prompt) =>
         let* prompt_result :=
           _evaluate_single_prompt connector prompt metrics model_info in
         ret (set_prompt_index i prompt_result))
      (enumerate prompts) in
  let* aggregated_metrics := _aggregate_prompt_results prompt_results metrics in
  ret {| mr_model_id := model_id;
         mr_model_info := model_info;
         mr_prompt_results := prompt_results;
         mr_aggregated_metrics := Some aggregated_metrics |}.

(** [scores.get('overall_score', 0)], used as a sort key and as a score.
    A dict stored under that key cannot be ordered against the numbers of
    the other models. *)
Definition get_overall_score (scores : odict agg_value) : result Q :=
  match od_get "overall_score" scores with
  | None => ret 0
  | Some (AggFloat q) => ret q
  | Some (AggMetric _) => raise TypeError
  end.

(** [scores.get(metric, {}).get('average_score', 0)]: a number has no
    [get]. *)
Definition get_average_score (metric : string) (scores : odict agg_value)
  : result Q :=
  match od_get metric scores with
  | None => ret 0
  | Some (AggMetric a) => ret (average_score a)
  | Some (AggFloat _) => raise AttributeError
  end.

Definition entry (x : string * Q) : ranking_entry :=
  {| re_model_id := x.1; re_score := x.2 |}.

(** The first loop of [_calculate_summary]. *)
Definition collect_model_scores (results : odict model_result)
  : odict (odict agg_value) :=
  fold_left
    (fun model_scores '(model_id, model_data) =>
       match mr_aggregated_metrics model_data with
       | Some aggregated_metrics => od_set model_id aggregated_metrics model_scores
       | None => model_scores
       end)
    results [].

(** The body of the loop over [metrics] in [_calculate_summary]. *)
Definition rank_metric (model_scores : odict (odict agg_value)) (summary : summary)
    (metric : string) : result BenchmarkRunner.summary :=
  let* pairs :=
    comprehension
      (fun '(mid, scores) =>
         let* score := get_average_score metric scores in ret (mid, score))
      model_scores in
  let metric_rankings := sorted_desc snd pairs in
  let rankings' := od_set metric (map entry metric_rankings) (rankings summary) in
  let best_performers' :=
    match metric_rankings with
    | [] => best_performers summary
    | top :: _ => od_set metric top.1 (best_performers summary)
    end in
  ret {| rankings := rankings';
         best_performers := best_performers';
         metric_averages := metric_averages summary |}.

Definition _calculate_summary (results : odict model_result) (metrics : list string)
  : result summary :=
  let summary :=
    {| rankings := []; best_performers := []; metric_averages := [] |} in
  let model_scores := collect_model_scores results in
  match model_scores with
  | [] => ret summary
  | _ =>
      let* keyed :=
        comprehension
          (fun '(model_id, scores) =>
             let* score := get_overall_score scores in ret (model_id, score))
          model_scores in
      let ranked_models := sorted_desc snd keyed in
      let summary :=
        {| rankings := od_set "overall" (map entry ranked_models) (rankings summary);
           best_performers := best_performers summary;
           metric_averages := metric_averages summary |} in
      for_each metrics (rank_metric model_scores) summary
  end.

Definition default_metrics : list string := ["latency"; "cost"; "quality"].

(** The loop of [run_benchmark] over [model_ids]. *)
Definition run_model (models : gmap string model_config) (prompts metrics : list string)
    (results : odict model_result) (model_id : string) : result (odict model_result) :=
  match get_model_connector models model_id with
  | None => ret results
  | Some connector =>
      let* model_results := _run_model_benchmark connector prompts metrics model_id in
      ret (od_set model_id model_results results)
  end.

(** [run_benchmark]. The fresh identifier of [uuid.uuid4()] and the reading
    of [time.time()] are inputs; the result is the returned run and the new
    state of the runner. *)
Definition run_benchmark (self : runner) (benchmark_id : string) (now : Q)
    (prompts model_ids : list string) (metrics : option (list string))
  : result (benchmark_run * runner) :=
  let metrics := default default_metrics metrics in
  let* results :=
    for_each model_ids (run_model (model_manager self) prompts metrics) [] in
  let* summary := _calculate_summary results metrics in
  let benchmark_results :=
    {| br_id := benchmark_id;
       br_timestamp := now;
       br_prompts := prompts;
       br_model_ids := model_ids;
       br_metrics := metrics;
       br_results := results;
       br_summary := summary |} in
  ret (benchmark_results,
       {| model_manager := model_manager self;
          results_store := <[benchmark_id := benchmark_results]> (results_store self) |}).

Definition get_results (self : runner) (benchmark_id : string) : option benchmark_run :=
  results_store self !! benchmark_id.

End BenchmarkRunner.

Import BenchmarkRunner.

(** ** leaderboard.py: Leaderboard *)

Module Leaderboard.

Local Open Scope Q_scope.
Local Open Scope string_scope.

(** An entry of a leaderboard ranking; the auxiliary field depends on the
    view. *)
Record lb_entry : Type := {
  lb_model_id : string;
  lb_score : Q;
  lb_provider : option string;
  lb_avg_latency : option Q;
  lb_avg_cost : option Q;
  lb_avg_quality : option Q
}.

Record leaderboard : Type := {
  rankings_cache : odict (list lb_entry);
  last_update : Q;
  cache_duration : Q
}.

(** [Leaderboard()] *)
Definition init : leaderboard :=
  {| rankings_cache := []; last_update := 0; cache_duration := 300 |}.

Definition mk_entry (model_id : string) (score : Q)
    (provider : option string) (avg_latency avg_cost avg_quality : option Q)
  : lb_entry :=
  {| lb_model_id := model_id; lb_score := score; lb_provider := provider;
     lb_avg_latency := avg_latency; lb_avg_cost := avg_cost;
     lb_avg_quality := avg_quality |}.

Definition mock_rankings : odict (list lb_entry) :=
  [("overall",
    [mk_entry "openai_gpt-4" 85.2 (Some "OpenAI") None None None;
     mk_entry "anthropic_claude-3-opus-20240229" 83.7 (Some "Anthropic") None None None;
     mk_entry "anthropic_claude-3-sonnet-20240229" 79.1 (Some "Anthropic") None None None;
     mk_entry "openai_gpt-3.5-turbo" 74.3 (Some "OpenAI") None None None;
     mk_entry "anthropic_claude-3-haiku-20240307" 71.8 (Some "Anthropic") None None None]);
   ("latency",
    [mk_entry "anthropic_claude-3-haiku-20240307" 92.1 None (Some 0.8) None None;
     mk_entry "openai_gpt-3.5-turbo" 87.6 None (Some 1.2) None None;
     mk_entry "anthropic_claude-3-sonnet-20240229" 82.3 None (Some 1.8) None None;
     mk_entry "openai_gpt-4" 75.4 None (Some 2.5) None None;
     mk_entry "anthropic_claude-3-opus-20240229" 68.9 None (Some 3.2) None None]);
   ("cost",
    [mk_entry "anthropic_claude-3-haiku-20240307" 95.8 None None (Some 0.0025) None;
     mk_entry "openai_gpt-3.5-turbo" 93.2 None None (Some 0.002) None;
     mk_entry "anthropic_claude-3-sonnet-20240229" 78.4 None None (Some 0.015) None;
     mk_entry "openai_gpt-4" 62.1 None None (Some 0.03) None;
     mk_entry "anthropic_claude-3-opus-20240229" 45.3 None None (Some 0.075) None]);
   ("quality",
    [mk_entry "openai_gpt-4" 91.7 None None None (Some 91.7);
     mk_entry "anthropic_claude-3-opus-20240229" 90.2 None None None (Some 90.2);
     mk_entry "anthropic_claude-3-sonnet-20240229" 85.6 None None None (Some 85.6);
     mk_entry "openai_gpt-3.5-turbo" 78.9 None None None (Some 78.9);
     mk_entry "anthropic_claude-3-haiku-20240307" 76.4 None None None (Some 76.4)])].

(** The dict returned by [get_rankings]. *)
Record rankings_view : Type := {
  rv_rankings : list lb_entry;
  rv_last_updated : Q;
  rv_total_benchmarks : nat;
  rv_total_models : nat
}.

(** [mock_rankings['overall']] *)
Definition mock_overall : list lb_entry :=
  default [] (od_get "overall" mock_rankings).

(** [get_rankings]; [now] is the reading of [time.time()]. *)
Definition get_rankings (self : leaderboard) (now : Q) (metric : string)
  : rankings_view :=
  {| rv_rankings := default mock_overall (od_get metric mock_rankings);
     rv_last_updated := now;
     rv_total_benchmarks := 15;
     rv_total_models := 5 |}.

(** [update_rankings]; [now] is the reading of [time.time()]. *)
Definition update_rankings (self : leaderboard) (now : Q)
    (benchmark_results : benchmark_run) : leaderboard :=
  {| rankings_cache := [];
     last_update := now;
     cache_duration := cache_duration self |}.

End Leaderboard.

(** * Vocabulary of the properties *)

Section Vocabulary.

Local Open Scope Q_scope.
Local Open Scope string_scope.

(** The value a call returns, up to equality of rationals. *)
Definition returns (r : result Q) (q : Q) : Prop :=
  match r with
  | inr x => (x == q)%Q
  | inl _ => False
  end.

(** The weight [aggregate_scores] gives a metric. *)
Definition weight_of (weights : gmap string Q) (metric : string) : Q :=
  default 0.1 (weights !! metric).

(** The sums of the weighted mean, written as the specification does:
    the sum of [score * weight] and the sum of the weights over the entries
    of [scores]. *)
Fixpoint weighted_sum (weights : gmap string Q) (scores : odict Q) : Q :=
  match scores with
  | [] => 0
  | (metric, score) :: scores' =>
      score * weight_of weights metric + weighted_sum weights scores'
  end.

Fixpoint total_weight (weights : gmap string Q) (scores : odict Q) : Q :=
  match scores with
  | [] => 0
  | (metric, _) :: scores' => weight_of weights metric + total_weight weights scores'
  end.

(** The weighted mean as a Python expression: the quotient of the two sums,
    which raises when the weights sum to zero. *)
Definition weighted_mean (weights : gmap string Q) (scores : odict Q) : result Q :=
  truediv (weighted_sum weights scores) (total_weight weights scores).

(** The weights in force: the supplied ones, or the defaults. *)
Definition effective_weights (weights : option (gmap string Q)) : gmap string Q :=
  default default_weights weights.

(** The set of words of a text, as [_calculate_text_similarity] takes it. *)
Definition word_set (text : string) : gset string :=
  list_to_set (split (lower text)).

(** The Jaccard index of two sets, as the specification names it: the size
    of the intersection over the size of the union, and 1 for two empty
    sets. *)
Definition jaccard (A B : gset string) : Q :=
  if bool_decide (A ∪ B = ∅) then 1
  else of_nat (size (A ∩ B)) / of_nat (size (A ∪ B)).

(** The heuristic score: what [calculate_quality_score] has added up from
    its length, sentence, ending and refusal rules before it looks at the
    reference. *)
Definition heuristic_score (response : string) : Q :=
  let words := length (split response) in
  50
  + (if ((10 <=? words) && (words <=? 500))%nat then 20
     else if ((5 <=? words) && (words <? 10)
              || (500 <? words) && (words <=? 1000))%nat then 10
     else 0)
  + (if (1 <? length (split_on "." response))%nat then 10 else 0)
  + (if endswith (strip response) "." || endswith (strip response) "!"
        || endswith (strip response) "?" then 10 else 0)
  - (if contains "I apologize" response || contains "I cannot" response
     then 10 else 0).

Definition clamp (x : Q) : Q := Qmin 100 (Qmax 0 x).

(** [before l a b]: some occurrence of [a] in [l] is followed, later in
    [l], by an occurrence of [b]. *)
Inductive before {A : Type} : list A -> A -> A -> Prop :=
| before_here (a b : A) (l : list A) : In b l -> before (a :: l) a b
| before_later (x a b : A) (l : list A) : before l a b -> before (x :: l) a b.

(** Scores in decreasing order. *)
Definition descending {A : Type} (key : A -> Q) (l : list A) : Prop :=
  forall i j a b, l !! i = Some a -> l !! j = Some b -> (i < j)%nat ->
                  (key b <= key a)%Q.

(** [a] may stand before [b] in a list sorted by decreasing key. *)
Definition ge_key {A : Type} (key : A -> Q) (a b : A) : Prop := key b <= key a.

(** The metric names [_evaluate_single_prompt] knows, in the order it
    stores them. *)
Definition computed_metrics : list string :=
  ["latency"; "cost"; "quality"; "context_utilization"]%string.

(** Whether the connector reports success for a prompt. *)
Definition succeeded (c : connector) (prompt : string) : bool :=
  default false (rd_success (generate_response c prompt)).

(** The entries of [aggregated] for the metrics in [ms]: an entry exists
    exactly for the metrics of [ms] that some succeeded result holds, and its
    count is the number of those results. *)
Definition aggregated_for (prompt_results : list prompt_result) (ms : list string)
    (d : odict agg_value) : Prop :=
  Forall (fun kv => exists a, kv.2 = AggMetric a) d
  /\ forall m,
      match od_get m d with
      | Some (AggMetric a) =>
          In m ms /\ count a = length (selected m prompt_results) /\ count a <> 0%nat
      | Some (AggFloat _) => False
      | None => ~ In m ms \/ selected m prompt_results = []
      end.

(** What [_aggregate_prompt_results] returns: a metric has an aggregate
    exactly when it was requested and some succeeded result holds it, the
    count being the number of those results; the only number in the dict is
    the overall score. *)
Definition aggregated_ok (prompt_results : list prompt_result)
    (metrics : list string) (agg : odict agg_value) : Prop :=
  (forall m,
      match od_get m agg with
      | Some (AggMetric a) =>
          m <> "overall_score"%string /\ In m metrics
          /\ count a = length (selected m prompt_results) /\ count a <> 0%nat
      | Some (AggFloat _) => m = "overall_score"%string
      | None => ~ In m metrics \/ selected m prompt_results = []
      end)
  /\ (agg = [] <-> forall m, In m metrics -> selected m prompt_results = []).

(** The prompt result [r] is the evaluation of the [i]-th prompt. *)
Definition prompt_evaluated (c : connector) (metrics : list string)
    (ip : nat * string) (r : prompt_result) : Prop :=
  pr_prompt_index r = Some ip.1
  /\ pr_prompt r = ip.2
  /\ pr_success r = succeeded c ip.2
  /\ pr_response r = get_response (generate_response c ip.2)
  /\ pr_error r = rd_error (generate_response c ip.2)
  /\ od_keys (pr_metrics r) = List.filter (fun k => mem k metrics) computed_metrics.

(** The number of prompts for which the connector reports success. *)
Definition n_succeeded (c : connector) (prompts : list string) : nat :=
  length (List.filter (succeeded c) prompts).

(** What [_run_model_benchmark] returns for a connector. *)
Definition model_benchmarked (c : connector) (prompts metrics : list string)
    (model_id : string) (mr : model_result) : Prop :=
  mr_model_id mr = model_id
  /\ mr_model_info mr = get_model_info c
  /\ Forall2 (prompt_evaluated c metrics) (enumerate prompts) (mr_prompt_results mr)
  /\ exists agg,
      mr_aggregated_metrics mr = Some agg
      /\ aggregated_ok (mr_prompt_results mr) metrics agg.

(** The position of the first occurrence of [x] in [l]. *)
Fixpoint index_of (x : string) (l : list string) : option nat :=
  match l with
  | [] => None
  | y :: l' => if String.eqb x y then Some 0%nat else option_map Datatypes.S (index_of x l')
  end.

(** The entries of [l] that satisfy [keep] and are not in [seen], each once,
    in the order of their first occurrence. *)
Fixpoint fresh_keys (keep : string -> bool) (seen l : list string) : list string :=
  match l with
  | [] => []
  | x :: l' =>
      if keep x && negb (mem x seen) then x :: fresh_keys keep (seen ++ [x]) l'
      else fresh_keys keep seen l'
  end.

(** Whether the registry yields a connector for a model id. *)
Definition resolvable (models : gmap string model_config) (model_id : string) : bool :=
  match get_model_connector models model_id with
  | Some _ => true
  | None => false
  end.

(** The keys of [results] after [run_benchmark]: the resolvable ids of
    [model_ids], in the order of their first occurrence. *)
Definition resolved_ids (models : gmap string model_config) (model_ids : list string)
  : list string :=
  fresh_keys (resolvable models) [] model_ids.

(** An entry of [results] is the benchmark of the connector of its key. *)
Definition entry_ok (models : gmap string model_config) (prompts metrics : list string)
    (kv : string * model_result) : Prop :=
  exists c,
    get_model_connector models kv.1 = Some c
    /\ _run_model_benchmark c prompts metrics kv.1 = inr kv.2.

(** The score a model gets in the overall ranking and in the ranking of a
    metric: the stored number, or 0 when the dict has no such entry. *)
Definition overall_of (agg : odict agg_value) : Q :=
  match od_get "overall_score" agg with
  | Some (AggFloat q) => q
  | _ => 0%Q
  end.

Definition average_of (metric : string) (agg : odict agg_value) : Q :=
  match od_get metric agg with
  | Some (AggMetric a) => average_score a
  | _ => 0%Q
  end.

(** In a well-formed [aggregated] dict the only number is the overall
    score. *)
Definition agg_wf (agg : odict agg_value) : Prop :=
  forall m,
    match od_get m agg with
    | Some (AggMetric _) => m <> "overall_score"%string
    | Some (AggFloat _) => m = "overall_score"%string
    | None => True
    end.

(** The model ids of [results] with their aggregated metrics. *)
Definition model_scores_of (results : odict model_result) : odict (odict agg_value) :=
  map (fun kv => (kv.1, default [] (mr_aggregated_metrics kv.2))) results.

Definition overall_pairs (ms : odict (odict agg_value)) : list (string * Q) :=
  map (fun kv => (kv.1, overall_of kv.2)) ms.

Definition metric_pairs (metric : string) (ms : odict (odict agg_value))
  : list (string * Q) :=
  map (fun kv => (kv.1, average_of metric kv.2)) ms.

Definition overall_ranking (ms : odict (odict agg_value)) : list ranking_entry :=
  map entry (sorted_desc snd (overall_pairs ms)).

Definition metric_ranking (metric : string) (ms : odict (odict agg_value))
  : list ranking_entry :=
  map entry (sorted_desc snd (metric_pairs metric ms)).

(** The effect of one iteration of the loop over [metrics]. *)
Definition rank_metric_step (ms : odict (odict agg_value)) (s : summary)
    (metric : string) : summary :=
  {| rankings := od_set metric (metric_ranking metric ms) (rankings s);
     best_performers :=
       match sorted_desc snd (metric_pairs metric ms) with
       | [] => best_performers s
       | top :: _ => od_set metric top.1 (best_performers s)
       end;
     metric_averages := metric_averages s |}.

Definition summary_of (ms : odict (odict agg_value)) (metrics : list string) : summary :=
  match ms with
  | [] => {| rankings := []; best_performers := []; metric_averages := [] |}
  | _ =>
      fold_left (rank_metric_step ms) metrics
        {| rankings := [("overall"%string, overall_ranking ms)];
           best_performers := []; metric_averages := [] |}
  end.

(** A ranking of the models of [results] by the score [f] of their
    aggregated metrics. *)
Definition ranking_by (f : odict agg_value -> Q) (results : odict model_result)
  : list ranking_entry :=
  map entry (sorted_desc snd (map (fun kv => (kv.1, f kv.2)) (model_scores_of results))).

(** The metrics in force: the requested ones, or the defaults. *)
Definition effective_metrics (metrics : option (list string)) : list string :=
  default default_metrics metrics.

(** The run [run_benchmark] builds from the results of its loop. *)
Definition run_of (benchmark_id : string) (now : Q) (prompts model_ids : list string)
    (metrics : option (list string)) (results : odict model_result) : benchmark_run :=
  {| br_id := benchmark_id;
     br_timestamp := now;
     br_prompts := prompts;
     br_model_ids := model_ids;
     br_metrics := effective_metrics metrics;
     br_results := results;
     br_summary := summary_of (model_scores_of results) (effective_metrics metrics) |}.

(** The model ids every view of the leaderboard lists. *)
Definition mock_models : list string :=
  ["openai_gpt-4"; "anthropic_claude-3-opus-20240229";
   "anthropic_claude-3-sonnet-20240229"; "openai_gpt-3.5-turbo";
   "anthropic_claude-3-haiku-20240307"].

End Vocabulary.

(** ** Example data: two registered models, one of which always fails *)

Module Examples.

Local Open Scope Q_scope.
Local Open Scope string_scope.

Definition info : model_info :=
  {| mi_name := "test-model"; mi_provider := "Mock";
     mi_max_context_length := Some 4096%Z;
     mi_cost_per_1k_tokens := Some 0.01 |}.

(** A connector that answers every prompt, like the mock connector of the
    test suite. *)
Definition working_connector : connector :=
  {| generate_response := fun prompt =>
       {| rd_response := Some (Some "Fine answer.");
          rd_latency := Some 1.5;
          rd_tokens_used := Some 150%Z;
          rd_success := Some true;
          rd_error := None |};
     get_model_info := info |}.

(** A connector whose every call fails, returning what the connectors return
    from their exception handler. *)
Definition failing_connector : connector :=
  {| generate_response := fun prompt =>
       {| rd_response := Some None;
          rd_latency := Some 0.2;
          rd_tokens_used := Some 0%Z;
          rd_success := Some false;
          rd_error := Some "connection refused" |};
     get_model_info := info |}.

(** A connector whose latency depends on the prompt: 0.5 s for ["p0"],
    5 s for ["p1"] and 11 s for every other prompt. *)
Definition timed_connector : connector :=
  {| generate_response := fun prompt =>
       {| rd_response := Some (Some "Fine answer.");
          rd_latency :=
            Some (if String.eqb prompt "p0" then 0.5
                  else if String.eqb prompt "p1" then 5 else 11);
          rd_tokens_used := Some 150%Z;
          rd_success := Some true;
          rd_error := None |};
     get_model_info := info |}.

Definition config (c : connector) : model_config :=
  {| connector_class := fun _ _ => inr c;
     api_key := Some "test";
     model_name := "test-model";
     enabled := true |}.

Definition models : gmap string model_config :=
  <["good" := config working_connector]>
    (<["bad" := config failing_connector]> ∅).

Definition fresh_runner : runner :=
  {| model_manager := models; results_store := ∅ |}.

(** The same registry in a runner that already stores a run. *)
Definition empty_summary : summary :=
  {| rankings := []; best_performers := []; metric_averages := [] |}.

Definition old_run : benchmark_run :=
  {| br_id := "old"; br_timestamp := 1; br_prompts := []; br_model_ids := [];
     br_metrics := []; br_results := []; br_summary := empty_summary |}.

Definition used_runner : runner :=
  {| model_manager := models; results_store := {["old" := old_run]} |}.

End Examples.

(** * Further code: custom models and the HTTP handlers *)

(** ** model_manager.py: add_model *)

Module CustomModels.

Local Open Scope string_scope.

(** The dict [add_model] receives; a field is [None] when the key is
    absent. *)
Record add_request : Type := {
  req_name : option string;
  req_api_key : option string;
  req_endpoint : option string
}.

(** The dict [add_model] returns: [{'success': True, 'model_id': ...}] or
    [{'success': False, 'error': ...}]. *)
Inductive add_result : Type :=
| Added (model_id : string)
| Failed (error : string).

(** [add_model] on the registry, with its argument [model_config] named
    [request] here. [GPTConnector] is the connector class every custom model
    gets. The entry also holds the key ['custom_endpoint'],
    which only [_save_config] reads; [_save_config] writes the configuration
    file, swallows its own errors and leaves the registry as it is. A
    request without ['name'] raises [KeyError] before the registry is
    touched, and the handler turns it into a failure. *)
Definition add_model (GPTConnector : string -> string -> result connector)
    (models : gmap string model_config) (request : add_request)
  : add_result * gmap string model_config :=
  match req_name request with
  | None => (Failed "'name'", models)
  | Some name =>
      let model_id := "custom_" ++ name in
      (Added model_id,
       <[model_id :=
           {| connector_class := GPTConnector;
              api_key := Some (default EmptyString (req_api_key request));
              model_name := name;
              enabled := true |}]> models)
  end.

End CustomModels.

Import CustomModels.

(** ** app.py: the handlers of the benchmark, results and leaderboard routes *)

Module App.

(** The module-level objects of [app.py]. *)
Record app_state : Type := {
  benchmark_runner : runner;
  leaderboard : Leaderboard.leaderboard
}.

(** The JSON body of a benchmark request; a field is [None] when the key is
    absent. *)
Record benchmark_request : Type := {
  rq_prompts : option (list string);
  rq_model_ids : option (list string);
  rq_metrics : option (list string)
}.

(** [run_benchmark()]: the value handed to [jsonify] and the new state. The
    identifier and the clock are those [BenchmarkRunner.run_benchmark]
    draws. *)
Definition run_benchmark (st : app_state) (benchmark_id : string) (now : Q)
    (data : benchmark_request) : result (benchmark_run * app_state) :=
  let prompts := default [] (rq_prompts data) in
  let model_ids := default [] (rq_model_ids data) in
  let metrics :=
    default ["latency"; "cost"; "quality"]%string (rq_metrics data) in
  let* returned :=
    BenchmarkRunner.run_benchmark (benchmark_runner st) benchmark_id now
      prompts model_ids (Some metrics) in
  ret (returned.1,
       {| benchmark_runner := returned.2; leaderboard := leaderboard st |}).


(** [get_leaderboard()] *)
Definition get_leaderboard (st : app_state) (now : Q) : Leaderboard.rankings_view :=
  Leaderboard.get_rankings (leaderboard st) now "overall".

End App.

(** * Vocabulary of the further properties *)

Section FurtherVocabulary.

Local Open Scope Q_scope.
Local Open Scope string_scope.

(** The statistics [_aggregate_prompt_results] stores for a metric, given
    the metric dicts [sel] it selected: the mean, the least and the greatest
    of their scores, their number, and the same for their raw values when
    there are any. *)
Definition metric_stats (sel : list metric_data) (a : metric_agg) : Prop :=
  count a = length sel
  /\ match map md_score sel with
     | [] => False
     | s :: scores' =>
         average_score a = sum (s :: scores') / of_nat (length (s :: scores'))
         /\ min_score a = min_list s scores'
         /\ max_score a = max_list s scores'
     end
  /\ match omap md_raw_value sel with
     | [] => average_raw a = None /\ min_raw a = None /\ max_raw a = None
     | r :: raws' =>
         average_raw a = Some (sum (r :: raws') / of_nat (length (r :: raws')))
         /\ min_raw a = Some (min_list r raws')
         /\ max_raw a = Some (max_list r raws')
     end.

(** The registry entry with its ['enabled'] flag set to [b]. *)
Definition with_enabled (b : bool) (cfg : model_config) : model_config :=
  {| connector_class := connector_class cfg;
     api_key := api_key cfg;
     model_name := model_name cfg;
     enabled := b |}.

(** The runner with the ['enabled'] flag of every registered model set to
    [b]. *)
Definition all_enabled (b : bool) (self : runner) : runner :=
  {| model_manager := with_enabled b <$> model_manager self;
     results_store := results_store self |}.

(** Every entry of the dict holds the statistics of its metric. *)
Definition stats_entries (prs : list prompt_result) (d : odict agg_value) : Prop :=
  Forall (fun kv => exists a, kv.2 = AggMetric a
                              /\ metric_stats (selected kv.1 prs) a) d.

(** Every score of the metrics of a prompt result lies in [0,100]. *)
Definition scores_in_range (r : prompt_result) : Prop :=
  forall m d, od_get m (pr_metrics r) = Some d -> 0 <= md_score d <= 100.

End FurtherVocabulary.

(** * Properties *)

(** ** Facts about the primitives *)

Section NumberFacts.

Local Open Scope Q_scope.

Lemma Qlt_bool_iff (x y : Q) : Qlt_bool x y = true <-> x < y.
Proof.
  unfold Qlt_bool. rewrite negb_true_iff. split.
  - intros H. apply Qnot_le_lt. intros Hle.
    apply Qle_bool_iff in Hle. congruence.
  - intros H. destruct (Qle_bool y x) eqn:E; [|reflexivity].
    apply Qle_bool_iff in E. exfalso. exact (Qlt_not_le _ _ H E).
Qed.

Lemma Qlt_bool_false (x y : Q) : Qlt_bool x y = false <-> y <= x.
Proof.
  unfold Qlt_bool. rewrite negb_false_iff. apply Qle_bool_iff.
Qed.

Lemma Qle_bool_false (x y : Q) : Qle_bool x y = false <-> y < x.
Proof.
  rewrite <- Qlt_bool_iff. unfold Qlt_bool. rewrite negb_true_iff. reflexivity.
Qed.

Lemma max2_spec (a b : Q) :
  (a < b /\ max2 a b = b) \/ (b <= a /\ max2 a b = a).
Proof.
  unfold max2. destruct (Qlt_bool a b) eqn:E.
  - left. split; [now apply Qlt_bool_iff | reflexivity].
  - right. split; [now apply Qlt_bool_false | reflexivity].
Qed.

Lemma min2_spec (a b : Q) :
  (b < a /\ min2 a b = b) \/ (a <= b /\ min2 a b = a).
Proof.
  unfold min2. destruct (Qlt_bool b a) eqn:E.
  - left. split; [now apply Qlt_bool_iff | reflexivity].
  - right. split; [now apply Qlt_bool_false | reflexivity].
Qed.

(** Division raises exactly when the divisor is zero. *)
Lemma truediv_ok (a b : Q) : ~ b == 0 -> truediv a b = inr (a / b).
Proof.
  intros H. unfold truediv. destruct (Qeq_bool b 0) eqn:E; [|reflexivity].
  apply Qeq_bool_iff in E. contradiction.
Qed.


End NumberFacts.

(** ** Latency score *)

Section LatencyScore.

Local Open Scope Q_scope.

Lemma div_nine (x : Q) : x / 9 == x * (1 # 9).
Proof. reflexivity. Qed.

Lemma latency_fast (l : Q) : l <= 1 -> calculate_latency_score l = 100.
Proof.
  intros H. unfold calculate_latency_score.
  apply Qle_bool_iff in H. now rewrite H.
Qed.

Lemma latency_slow (l : Q) : 10 <= l -> calculate_latency_score l == 0.
Proof.
  intros H. unfold calculate_latency_score.
  destruct (Qle_bool l 1) eqn:E.
  - apply Qle_bool_iff in E. lra.
  - apply Qle_bool_iff in H. rewrite H. reflexivity.
Qed.

Lemma latency_between (l : Q) :
  1 < l -> l < 10 -> calculate_latency_score l == 100 * (10 - l) / 9.
Proof.
  intros H1 H10. unfold calculate_latency_score.
  rewrite (proj2 (Qle_bool_false _ _) H1), (proj2 (Qle_bool_false _ _) H10).
  destruct (max2_spec 0 (100 * (10 - l) / 9)) as [[_ ->] | [Hneg _]];
    [reflexivity|].
  exfalso.
  rewrite div_nine in Hneg. lra.
Qed.

Lemma latency_cases (l : Q) :
  (l <= 1 /\ calculate_latency_score l == 100)
  \/ (10 <= l /\ calculate_latency_score l == 0)
  \/ (1 < l /\ l < 10 /\ calculate_latency_score l == 100 * (10 - l) / 9).
Proof.
  destruct (Qlt_le_dec 1 l) as [H1|H1].
  - destruct (Qlt_le_dec l 10) as [H10|H10].
    + right; right. auto using latency_between.
    + right; left. auto using latency_slow.
  - left. split; [assumption|]. now rewrite latency_fast.
Qed.

Lemma latency_monotone (a b : Q) :
  a <= b -> calculate_latency_score b <= calculate_latency_score a.
Proof.
  intros Hab.
  destruct (latency_cases a) as [[Ha ->] | [[Ha ->] | (Ha1 & Ha2 & ->)]];
  destruct (latency_cases b) as [[Hb ->] | [[Hb ->] | (Hb1 & Hb2 & ->)]];
    rewrite ?div_nine; lra.
Qed.

(** C5: the latency score is 100 up to one second, 0 from ten seconds on
    and [100 * (10 - latency) / 9] in between; it never increases with the
    latency; it is exactly 100 at 1.0, exactly 0 at 10.0, and 500/9 (55.6
    to one decimal) at 5.0. *)
Theorem latency_score_piecewise_monotone :
  (forall l, l <= 1 -> calculate_latency_score l == 100)
  /\ (forall l, 10 <= l -> calculate_latency_score l == 0)
  /\ (forall l, 1 < l -> l < 10 ->
        calculate_latency_score l == 100 * (10 - l) / 9)
  /\ (forall a b, a <= b -> calculate_latency_score b <= calculate_latency_score a)
  /\ calculate_latency_score 1 == 100
  /\ calculate_latency_score 10 == 0
  /\ calculate_latency_score 5 == 500 / 9
  /\ 55.55 <= calculate_latency_score 5 <= 55.65.
Proof.
  repeat apply conj.
  - intros l H. now rewrite latency_fast.
  - exact latency_slow.
  - exact latency_between.
  - exact latency_monotone.
  - reflexivity.
  - reflexivity.
  - reflexivity.
  - now vm_compute.
  - now vm_compute.
Qed.

End LatencyScore.

(** ** Score aggregation *)

Section Aggregation.

Local Open Scope Q_scope.

Lemma fold_accumulate (weights : gmap string Q) (scores : odict Q) (ts tw : Q) :
  (fold_left (accumulate weights) scores (ts, tw)).1 == ts + weighted_sum weights scores
  /\ (fold_left (accumulate weights) scores (ts, tw)).2 == tw + total_weight weights scores.
Proof.
  revert ts tw. induction scores as [|[metric score] scores IH]; intros ts tw; simpl.
  - split; ring.
  - destruct (IH (ts + score * default 0.1 (weights !! metric))
                 (tw + default 0.1 (weights !! metric))) as [-> ->].
    unfold weight_of. split; ring.
Qed.

(** What [aggregate_scores] computes on a non-empty dict. *)
Lemma aggregate_scores_cases (scores : odict Q) (weights : option (gmap string Q)) :
  scores <> [] ->
  let w := effective_weights weights in
  (0 < total_weight w scores
   /\ returns (aggregate_scores scores weights)
        (weighted_sum w scores / total_weight w scores))
  \/ (total_weight w scores <= 0 /\ aggregate_scores scores weights = inr 0).
Proof.
  intros Hne w. subst w. unfold aggregate_scores, effective_weights.
  destruct scores as [|item scores]; [congruence|].
  remember (item :: scores) as l eqn:El. clear El Hne.
  remember (default default_weights weights) as w eqn:Ew. clear Ew.
  destruct (fold_accumulate w l 0 0) as [Hs Hw].
  destruct (fold_left (accumulate w) l (0, 0)) as [ts tw]. simpl in Hs, Hw.
  rewrite Qplus_0_l in Hs, Hw.
  destruct (Qlt_bool 0 tw) eqn:E.
  - left. apply Qlt_bool_iff in E. split; [now rewrite <- Hw|].
    rewrite truediv_ok by lra. simpl. now rewrite Hs, Hw.
  - right. apply Qlt_bool_false in E. split; [now rewrite <- Hw | reflexivity].
Qed.

Lemma total_weight_zero (w : gmap string Q) (scores : odict Q) :
  (forall metric score, In (metric, score) scores -> weight_of w metric == 0) ->
  total_weight w scores == 0.
Proof.
  induction scores as [|[metric score] scores IH]; intros H; simpl.
  - reflexivity.
  - rewrite (H metric score) by now left.
    rewrite IH; [ring|]. intros m s' Hin. apply (H m s'). now right.
Qed.

Lemma aggregate_scores_returns (scores : odict Q) (weights : option (gmap string Q)) :
  exists q, aggregate_scores scores weights = inr q.
Proof.
  destruct scores as [|item scores]; [now exists 0|].
  destruct (aggregate_scores_cases (item :: scores) weights) as [[_ H] | [_ H]];
    [discriminate | |].
  - unfold returns in H.
    destruct (aggregate_scores (item :: scores) weights) as [e|q];
      [contradiction | now exists q].
  - now exists 0.
Qed.

(** Counterexample to C6 as stated: with the single weight 0 the weighted
    mean of the single score 100 is undefined, and with the single weight
    [-1] it is 100; [aggregate_scores] returns 0 in both cases. *)
Lemma aggregate_scores_nonpositive_weight :
  aggregate_scores [("a"%string, 100)] (Some {["a"%string := 0]}) = inr 0
  /\ weighted_mean {["a"%string := 0]} [("a"%string, 100)] = inl ZeroDivisionError
  /\ aggregate_scores [("a"%string, 100)] (Some {["a"%string := -1]}) = inr 0
  /\ returns (weighted_mean {["a"%string := -1]} [("a"%string, 100)]) 100
  /\ ~ returns (aggregate_scores [("a"%string, 100)] (Some {["a"%string := -1]})) 100.
Proof.
  repeat apply conj; try reflexivity.
  vm_compute. discriminate.
Qed.

(** C6, amended: [aggregate_scores] returns 0 for an empty dict; for a
    non-empty one it returns the weighted mean
    [sum (score * weight) / sum weight] when the total weight is positive and
    0 when it is not; the weights are latency 0.3, cost 0.2, quality 0.4 and
    context_utilization 0.1 when none are given, and a metric absent from the
    weights has weight 0.1; the scores a:100, b:0 with weights a:1, b:1
    give 50. *)
Theorem aggregate_scores_weighted_mean
    (scores : odict Q) (weights : option (gmap string Q)) :
  aggregate_scores [] weights = inr 0
  /\ (scores <> [] -> 0 < total_weight (effective_weights weights) scores ->
      returns (aggregate_scores scores weights)
        (weighted_sum (effective_weights weights) scores
         / total_weight (effective_weights weights) scores))
  /\ (scores <> [] -> total_weight (effective_weights weights) scores <= 0 ->
      aggregate_scores scores weights = inr 0)
  /\ effective_weights None !! "latency"%string = Some 0.3
  /\ effective_weights None !! "cost"%string = Some 0.2
  /\ effective_weights None !! "quality"%string = Some 0.4
  /\ effective_weights None !! "context_utilization"%string = Some 0.1
  /\ (forall metric, effective_weights weights !! metric = None ->
      weight_of (effective_weights weights) metric = 0.1)
  /\ returns (aggregate_scores [("a"%string, 100); ("b"%string, 0)]
               (Some (<["a"%string := 1]> {["b"%string := 1]}))) 50.
Proof.
  repeat apply conj.
  - reflexivity.
  - intros Hne Hpos.
    destruct (aggregate_scores_cases scores weights Hne) as [[_ H] | [H _]];
      [exact H | lra].
  - intros Hne Hle.
    destruct (aggregate_scores_cases scores weights Hne) as [[H _] | [_ H]];
      [lra | exact H].
  - reflexivity.
  - reflexivity.
  - reflexivity.
  - reflexivity.
  - intros metric H. unfold weight_of. now rewrite H.
  - now vm_compute.
Qed.

(** C10: [aggregate_scores] never raises: it returns a number for every
    dict of scores and every weights, and that number is 0 whenever the total
    weight is 0, in particular when every metric of [scores] has weight 0. *)
Theorem aggregate_scores_total
    (scores : odict Q) (weights : option (gmap string Q)) :
  (exists q, aggregate_scores scores weights = inr q)
  /\ (total_weight (effective_weights weights) scores == 0 ->
      aggregate_scores scores weights = inr 0)
  /\ ((forall metric score, In (metric, score) scores ->
         weight_of (effective_weights weights) metric == 0) ->
      aggregate_scores scores weights = inr 0)
  /\ aggregate_scores [("a"%string, 100)] (Some {["a"%string := 0]}) = inr 0.
Proof.
  assert (Hzero : total_weight (effective_weights weights) scores == 0 ->
                  aggregate_scores scores weights = inr 0).
  { intros H0. destruct scores as [|item scores]; [reflexivity|].
    destruct (aggregate_scores_cases (item :: scores) weights) as [[H _] | [_ H]];
      [discriminate | lra | exact H]. }
  repeat apply conj.
  - apply aggregate_scores_returns.
  - exact Hzero.
  - intros H. apply Hzero. now apply total_weight_zero.
  - reflexivity.
Qed.

End Aggregation.

(** ** Quality score *)

Section QualityScore.

Local Open Scope Q_scope.

Lemma clamp_code (x y : Q) : x == y -> min2 100 (max2 0 x) == clamp y.
Proof.
  intros H. unfold clamp.
  destruct (max2_spec 0 x) as [[H1 ->] | [H1 ->]];
  destruct (Q.max_spec 0 y) as [[H2 ->] | [H2 ->]]; try lra.
  - destruct (min2_spec 100 x) as [[H3 ->] | [H3 ->]];
    destruct (Q.min_spec 100 y) as [[H4 ->] | [H4 ->]]; lra.
  - destruct (min2_spec 100 0) as [[H3 ->] | [H3 ->]];
    destruct (Q.min_spec 100 0) as [[H4 ->] | [H4 ->]]; lra.
Qed.

Lemma clamp_bounds (x : Q) : 0 <= clamp x <= 100.
Proof.
  unfold clamp.
  destruct (Q.max_spec 0 x) as [[H2 E2] | [H2 E2]];
  destruct (Q.min_spec 100 (Qmax 0 x)) as [[H4 ->] | [H4 ->]]; lra.
Qed.

Lemma heuristic_bounds (response : string) : 40 <= heuristic_score response <= 90.
Proof.
  unfold heuristic_score.
  repeat match goal with |- context [if ?b then _ else _] => destruct b end;
    split; now vm_compute.
Qed.

Lemma of_nat_zero (n : nat) : of_nat n == 0 <-> n = 0%nat.
Proof.
  unfold of_nat, Qeq. simpl. lia.
Qed.

Lemma similarity_jaccard (text1 text2 : string) :
  returns (_calculate_text_similarity text1 text2)
          (jaccard (word_set text1) (word_set text2)).
Proof.
  unfold _calculate_text_similarity, jaccard. fold (word_set text1) (word_set text2).
  generalize (word_set text1) (word_set text2). intros A B.
  destruct (decide (A = ∅)) as [HA|HA]; destruct (decide (B = ∅)) as [HB|HB].
  - rewrite !bool_decide_eq_true_2 by (try assumption; set_solver). reflexivity.
  - rewrite (bool_decide_eq_true_2 _ HA), (bool_decide_eq_false_2 _ HB).
    rewrite bool_decide_eq_false_2 by set_solver. simpl.
    rewrite HA, (left_absorb_L ∅ (∩)), size_empty. unfold Qdiv. now rewrite Qmult_0_l.
  - rewrite (bool_decide_eq_false_2 _ HA), (bool_decide_eq_true_2 _ HB).
    rewrite bool_decide_eq_false_2 by set_solver. simpl.
    rewrite HB, (right_absorb_L ∅ (∩)), size_empty. unfold Qdiv. now rewrite Qmult_0_l.
  - rewrite (bool_decide_eq_false_2 _ HA), (bool_decide_eq_false_2 _ HB).
    rewrite bool_decide_eq_false_2 by set_solver. simpl.
    rewrite truediv_ok; [reflexivity|].
    rewrite of_nat_zero. intros H. apply size_empty_inv in H. set_solver.
Qed.

Ltac case_conditions :=
  repeat match goal with
         | |- context [if ?b then _ else _] => destruct b
         end.

Lemma quality_without_reference (response : string) (reference : option string) :
  response <> EmptyString -> truthy reference = false ->
  returns (calculate_quality_score (Some response) reference)
          (clamp (heuristic_score response)).
Proof.
  intros Hne Href. destruct response as [|c s]; [congruence|].
  unfold calculate_quality_score, heuristic_score.
  destruct reference as [[|c' s']|]; try discriminate;
    cbv beta iota zeta; unfold bind, ret, returns;
    apply clamp_code; case_conditions; ring.
Qed.

Lemma quality_with_reference (response reference : string) :
  response <> EmptyString -> reference <> EmptyString ->
  returns (calculate_quality_score (Some response) (Some reference))
          (clamp ((heuristic_score response
                   + 100 * jaccard (word_set response) (word_set reference)) / 2)).
Proof.
  intros Hne Href. destruct response as [|c s]; [congruence|].
  destruct reference as [|c' s']; [congruence|].
  pose proof (similarity_jaccard (String c s) (String c' s')) as Hsim.
  unfold calculate_quality_score, heuristic_score.
  cbv beta iota zeta.
  destruct (_calculate_text_similarity (String c s) (String c' s')) as [e|q];
    [contradiction|].
  unfold bind, ret, returns in *.
  apply clamp_code. rewrite Hsim. case_conditions; field.
Qed.

(** Counterexample to C4 as stated: with the empty reference the score of
    ["Hello."] is its heuristic score 70, not the midpoint 35 between 70 and
    100 times the word overlap 0. *)
Lemma quality_empty_reference_not_midpoint :
  calculate_quality_score (Some "Hello."%string) (Some ""%string) = inr 70
  /\ heuristic_score "Hello." == 70
  /\ jaccard (word_set "Hello.") (word_set "") == 0
  /\ ~ returns (calculate_quality_score (Some "Hello."%string) (Some ""%string))
        (clamp ((heuristic_score "Hello."
                 + 100 * jaccard (word_set "Hello.") (word_set "")) / 2)).
Proof.
  repeat apply conj; try now vm_compute.
Qed.

(** C4, amended: for a non-empty response and a non-empty reference the
    quality score is the midpoint between the heuristic score and 100 times
    the Jaccard word overlap of response and reference, clamped to [0,100];
    with an empty or absent reference it is the heuristic score, clamped;
    for an empty (or absent) response it is 0 whatever the reference. *)
Theorem quality_score_reference (response reference : string) :
  (response <> EmptyString -> reference <> EmptyString ->
   returns (calculate_quality_score (Some response) (Some reference))
           (clamp ((heuristic_score response
                    + 100 * jaccard (word_set response) (word_set reference)) / 2)))
  /\ (response <> EmptyString ->
      returns (calculate_quality_score (Some response) (Some EmptyString))
              (clamp (heuristic_score response))
      /\ returns (calculate_quality_score (Some response) None)
                 (clamp (heuristic_score response)))
  /\ (forall x, 0 <= clamp x <= 100)
  /\ (forall ref : option string,
        calculate_quality_score (Some EmptyString) ref = inr 0
        /\ calculate_quality_score None ref = inr 0).
Proof.
  repeat apply conj.
  - apply quality_with_reference.
  - intros Hne. split; now apply quality_without_reference.
  - apply clamp_bounds.
  - intros ref. split; reflexivity.
Qed.

End QualityScore.

(** ** Facts about dictionaries, loops and sorting *)

Section DictFacts.

Context {V : Type}.

Lemma od_get_set_eq (k : string) (v : V) (d : odict V) :
  od_get k (od_set k v d) = Some v.
Proof.
  induction d as [|[k' v'] d IH]; simpl.
  - now rewrite String.eqb_refl.
  - destruct (String.eqb_spec k k') as [->|Hne]; simpl.
    + now rewrite String.eqb_refl.
    + destruct (String.eqb_spec k k'); [contradiction | exact IH].
Qed.

Lemma od_get_set_ne (k k' : string) (v : V) (d : odict V) :
  k <> k' -> od_get k' (od_set k v d) = od_get k' d.
Proof.
  intros Hne. induction d as [|[k0 v0] d IH]; simpl.
  - destruct (String.eqb_spec k' k); [congruence | reflexivity].
  - destruct (String.eqb_spec k k0) as [->|Hk]; simpl.
    + destruct (String.eqb_spec k' k0); [congruence | reflexivity].
    + destruct (String.eqb_spec k' k0); [reflexivity | exact IH].
Qed.

Lemma mem_In (x : string) (l : list string) : mem x l = true <-> In x l.
Proof.
  unfold mem. rewrite existsb_exists. split.
  - intros (y & Hy & E). apply String.eqb_eq in E. now subst.
  - intros H. exists x. split; [assumption | apply String.eqb_refl].
Qed.

Lemma mem_false (x : string) (l : list string) : mem x l = false <-> ~ In x l.
Proof.
  rewrite <- mem_In. destruct (mem x l); split; congruence.
Qed.

Lemma od_get_None_keys (k : string) (d : odict V) :
  od_get k d = None <-> ~ In k (od_keys d).
Proof.
  induction d as [|[k' v'] d IH]; simpl.
  - tauto.
  - destruct (String.eqb_spec k k') as [->|Hne].
    + split; [discriminate | intros H; exfalso; apply H; now left].
    + rewrite IH. split; [intros H [E|H']; [congruence | contradiction] | tauto].
Qed.

Lemma od_get_Some_In (k : string) (v : V) (d : odict V) :
  od_get k d = Some v -> In (k, v) d.
Proof.
  induction d as [|[k' v'] d IH]; simpl; [discriminate|].
  destruct (String.eqb_spec k k') as [->|Hne].
  - intros [= ->]. now left.
  - intros H. right. now apply IH.
Qed.

Lemma od_In_get (k : string) (v : V) (d : odict V) :
  NoDup (od_keys d) -> In (k, v) d -> od_get k d = Some v.
Proof.
  induction d as [|[k' v'] d IH]; simpl; [tauto|].
  intros Hnd [E|Hin].
  - injection E as -> ->. now rewrite String.eqb_refl.
  - apply NoDup_cons in Hnd as [Hk Hnd].
    destruct (String.eqb_spec k k') as [->|Hne]; [|now apply IH].
    exfalso. apply Hk. apply list_elem_of_In.
    apply (in_map fst) in Hin. exact Hin.
Qed.

Lemma od_keys_set (k : string) (v : V) (d : odict V) :
  od_keys (od_set k v d) = if mem k (od_keys d) then od_keys d else od_keys d ++ [k].
Proof.
  induction d as [|[k' v'] d IH]; simpl; [reflexivity|].
  unfold mem in *. simpl.
  destruct (String.eqb_spec k k') as [->|Hne]; simpl; [reflexivity|].
  rewrite IH. now destruct (existsb (String.eqb k) (od_keys d)).
Qed.

Lemma od_set_fresh (k : string) (v : V) (d : odict V) :
  ~ In k (od_keys d) -> od_set k v d = d ++ [(k, v)].
Proof.
  induction d as [|[k' v'] d IH]; simpl; [reflexivity|].
  intros H. destruct (String.eqb_spec k k') as [->|Hne]; [tauto|].
  rewrite IH; [reflexivity | tauto].
Qed.

Lemma od_set_NoDup (k : string) (v : V) (d : odict V) :
  NoDup (od_keys d) -> NoDup (od_keys (od_set k v d)).
Proof.
  intros H. rewrite od_keys_set. destruct (mem k (od_keys d)) eqn:E; [exact H|].
  apply mem_false in E. apply NoDup_app. repeat split.
  - exact H.
  - intros x Hx Hx'. apply list_elem_of_In in Hx, Hx'.
    destruct Hx' as [->|[]]. contradiction.
  - apply NoDup_singleton.
Qed.

Lemma od_set_not_nil (k : string) (v : V) (d : odict V) : od_set k v d <> [].
Proof.
  destruct d as [|[k' v'] d]; simpl; [discriminate|].
  destruct (String.eqb k k'); discriminate.
Qed.

Lemma Forall_od_set (P : string * V -> Prop) (k : string) (v : V) (d : odict V) :
  Forall P d -> P (k, v) -> Forall P (od_set k v d).
Proof.
  intros Hall Hv. induction d as [|[k' v'] d IH]; simpl.
  - constructor; [exact Hv | constructor].
  - apply Forall_cons in Hall as [Hv' Hall].
    destruct (String.eqb k k').
    + constructor; [exact Hv | exact Hall].
    + constructor; [exact Hv' | now apply IH].
Qed.

End DictFacts.

Section LoopFacts.

Context {A B S : Type}.

(** A comprehension whose element expression never raises is a [map]. *)
Lemma comprehension_map (f : A -> result B) (g : A -> B) (l : list A) :
  (forall x, In x l -> f x = inr (g x)) -> comprehension f l = inr (map g l).
Proof.
  induction l as [|x l IH]; intros H; simpl; [reflexivity|].
  rewrite (H x) by now left. simpl.
  rewrite IH; [reflexivity|]. intros y Hy. apply H. now right.
Qed.

(** A loop whose body never raises is a [fold_left]. *)
Lemma for_each_fold (body : S -> A -> result S) (step : S -> A -> S)
    (l : list A) (s : S) :
  (forall s x, In x l -> body s x = inr (step s x)) ->
  for_each l body s = inr (fold_left step l s).
Proof.
  revert s. induction l as [|x l IH]; intros s H; simpl; [reflexivity|].
  rewrite (H s x) by now left. simpl.
  apply IH. intros s' y Hy. apply H. now right.
Qed.

End LoopFacts.

Lemma before_In {A : Type} (l : list A) (a b : A) : before l a b -> In a l /\ In b l.
Proof.
  induction 1 as [a b l H | x a b l H [IHa IHb]]; simpl; tauto.
Qed.

Lemma lookup_before {A : Type} (l : list A) (i j : nat) (a b : A) :
  l !! i = Some a -> l !! j = Some b -> (i < j)%nat -> before l a b.
Proof.
  revert i j. induction l as [|x l IH]; intros i j Ha Hb Hij; [discriminate|].
  destruct j as [|j]; [lia|]. simpl in Hb.
  destruct i as [|i]; simpl in Ha.
  - injection Ha as ->. apply before_here.
    apply list_elem_of_In. eapply list_elem_of_lookup_2. exact Hb.
  - apply before_later. apply (IH i j); [assumption | assumption | lia].
Qed.

Lemma before_lookup {A : Type} (l : list A) (a b : A) :
  before l a b ->
  exists i j, l !! i = Some a /\ l !! j = Some b /\ (i < j)%nat.
Proof.
  induction 1 as [a b l H | x a b l H (i & j & Ha & Hb & Hij)].
  - apply list_elem_of_In, list_elem_of_lookup_1 in H as [j Hj].
    exists 0%nat, (Datatypes.S j). repeat split; [assumption | lia].
  - exists (Datatypes.S i), (Datatypes.S j). repeat split; [assumption | assumption | lia].
Qed.

Section SortingFacts.

Context {A : Type} (key : A -> Q).

Local Open Scope Q_scope.

Lemma insert_desc_In (x y : A) (l : list A) :
  In y (insert_desc key x l) <-> y = x \/ In y l.
Proof.
  induction l as [|z l IH]; simpl.
  - intuition congruence.
  - destruct (Qlt_bool (key x) (key z)); simpl; [rewrite IH|]; intuition congruence.
Qed.

Lemma insert_desc_Permutation (x : A) (l : list A) :
  Permutation (x :: l) (insert_desc key x l).
Proof.
  induction l as [|z l IH]; simpl; [reflexivity|].
  destruct (Qlt_bool (key x) (key z)); [|reflexivity].
  rewrite Permutation_swap. now apply Permutation_skip.
Qed.

Lemma sorted_desc_Permutation (l : list A) : Permutation l (sorted_desc key l).
Proof.
  induction l as [|x l IH]; simpl; [reflexivity|].
  rewrite <- insert_desc_Permutation. now apply Permutation_skip.
Qed.

Lemma sorted_desc_In (x : A) (l : list A) : In x (sorted_desc key l) <-> In x l.
Proof.
  rewrite <- !list_elem_of_In. now rewrite <- sorted_desc_Permutation.
Qed.

Lemma sorted_desc_length (l : list A) : length (sorted_desc key l) = length l.
Proof.
  symmetry. apply Permutation_length, sorted_desc_Permutation.
Qed.

Lemma insert_desc_sorted (x : A) (l : list A) :
  StronglySorted (ge_key key) l -> StronglySorted (ge_key key) (insert_desc key x l).
Proof.
  induction 1 as [|z l Hs IH Hz]; simpl.
  - repeat constructor.
  - destruct (Qlt_bool (key x) (key z)) eqn:E.
    + constructor; [exact IH|].
      apply Forall_forall. intros y Hy. apply list_elem_of_In in Hy.
      apply insert_desc_In in Hy as [->|Hy].
      * apply Qlt_bool_iff in E. unfold ge_key. lra.
      * rewrite Forall_forall in Hz. apply Hz. now apply list_elem_of_In.
    + apply Qlt_bool_false in E.
      constructor; [now constructor|].
      constructor; [exact E|].
      eapply Forall_impl; [exact Hz|].
      intros y Hy. unfold ge_key in *. lra.
Qed.

Lemma sorted_desc_sorted (l : list A) : StronglySorted (ge_key key) (sorted_desc key l).
Proof.
  induction l as [|x l IH]; simpl; [constructor | now apply insert_desc_sorted].
Qed.

Lemma StronglySorted_descending (l : list A) :
  StronglySorted (ge_key key) l -> descending key l.
Proof.
  induction 1 as [|z l Hs IH Hz]; intros i j a b Ha Hb Hij; [discriminate|].
  destruct j as [|j]; [lia|]. simpl in Hb.
  destruct i as [|i]; simpl in Ha.
  - injection Ha as ->. rewrite Forall_forall in Hz. apply Hz.
    eapply list_elem_of_lookup_2. exact Hb.
  - apply (IH i j); [assumption | assumption | lia].
Qed.

Lemma sorted_desc_descending (l : list A) : descending key (sorted_desc key l).
Proof.
  apply StronglySorted_descending, sorted_desc_sorted.
Qed.

(** Stability: elements with equal keys keep their relative order. *)
Lemma insert_desc_stable (x a b : A) (l : list A) :
  before (insert_desc key x l) a b -> key a == key b -> before (x :: l) a b.
Proof.
  intros H E. induction l as [|z l IH]; simpl in H; [exact H|].
  destruct (Qlt_bool (key x) (key z)) eqn:Hxz; [|exact H].
  apply Qlt_bool_iff in Hxz.
  inversion H as [a' b' l' Hin | z' a' b' l' Hb]; subst.
  - apply insert_desc_In in Hin as [->|Hin]; [lra|].
    apply before_later. now apply before_here.
  - specialize (IH Hb).
    inversion IH as [a' b' l' Hin | z' a' b' l' Hb']; subst.
    + apply before_here. now right.
    + now do 2 apply before_later.
Qed.

Lemma sorted_desc_stable (a b : A) (l : list A) :
  before (sorted_desc key l) a b -> key a == key b -> before l a b.
Proof.
  revert a b. induction l as [|x l IH]; intros a b H E.
  - inversion H.
  - change (sorted_desc key (x :: l))
      with (insert_desc key x (sorted_desc key l)) in H.
    apply insert_desc_stable in H; [|exact E].
    inversion H as [a' b' l' Hin | z' a' b' l' Hb]; subst.
    + apply before_here. exact (proj1 (sorted_desc_In _ _) Hin).
    + apply before_later. now apply IH.
Qed.

End SortingFacts.

Lemma before_map_inv {A B : Type} (f : A -> B) (l : list A) (a' b' : B) :
  before (map f l) a' b' ->
  exists a b, f a = a' /\ f b = b' /\ before l a b.
Proof.
  revert a' b'. induction l as [|x l IH]; intros a' b' H; simpl in H.
  - inversion H.
  - inversion H as [a0 b0 l0 Hin | z a0 b0 l0 Hb]; subst.
    + apply in_map_iff in Hin as (b & <- & Hin).
      exists x, b. split; [reflexivity|]. split; [reflexivity|].
      apply before_here. exact Hin.
    + apply IH in Hb as (a & b & <- & <- & Hab).
      exists a, b. split; [reflexivity|]. split; [reflexivity|].
      apply before_later. exact Hab.
Qed.

Lemma before_map {A B : Type} (f : A -> B) (l : list A) (a b : A) :
  before l a b -> before (map f l) (f a) (f b).
Proof.
  induction 1 as [a b l H | x a b l H IH]; simpl.
  - apply before_here. now apply in_map.
  - now apply before_later.
Qed.

(** ** Evaluation of one prompt *)

Section EvaluateFacts.

Local Open Scope Q_scope.

Lemma calculate_cost_score_ok (cost : Q) :
  exists q, calculate_cost_score cost default_max_cost = inr q.
Proof.
  unfold calculate_cost_score.
  destruct (Qle_bool cost 0); [now eexists|].
  rewrite truediv_ok by (unfold default_max_cost; lra).
  now eexists.
Qed.

Lemma calculate_quality_score_ok (response : option string) :
  exists q, calculate_quality_score response None = inr q.
Proof.
  destruct response as [[|c s]|]; now eexists.
Qed.

Lemma calculate_context_utilization_score_ok (prompt_length : nat) (max_context : Z) :
  exists q, calculate_context_utilization_score prompt_length max_context = inr q.
Proof.
  unfold calculate_context_utilization_score.
  destruct (Z.leb_spec max_context 0) as [H|H]; [now eexists|].
  rewrite truediv_ok.
  - simpl. repeat match goal with
             | |- context [if ?b then _ else _] => destruct b
             end; now eexists.
  - unfold Qeq. simpl. lia.
Qed.

Lemma od_mem_keys {V : Type} (k : string) (d : odict V) :
  od_mem k d = mem k (od_keys d).
Proof.
  unfold od_mem. destruct (od_get k d) eqn:E.
  - symmetry. apply mem_In. apply od_get_Some_In in E.
    apply (in_map fst) in E. exact E.
  - symmetry. apply mem_false. now apply od_get_None_keys.
Qed.

(** [_evaluate_single_prompt] never raises; the result records the prompt
    and the success flag, and holds one entry for each requested metric
    among the computed ones, whether or not the generation succeeded. *)
Lemma evaluate_single_prompt_ok (c : connector) (prompt : string)
    (metrics : list string) (info : model_info) :
  exists r,
    _evaluate_single_prompt c prompt metrics info = inr r
    /\ pr_prompt r = prompt
    /\ pr_success r = succeeded c prompt
    /\ pr_response r = get_response (generate_response c prompt)
    /\ pr_error r = rd_error (generate_response c prompt)
    /\ od_keys (pr_metrics r)
       = List.filter (fun k => mem k metrics) computed_metrics.
Proof.
  unfold _evaluate_single_prompt.
  destruct (calculate_cost_score_ok
              (inject_Z (default 0%Z (rd_tokens_used (generate_response c prompt)))
               / 1000 * default 0 (mi_cost_per_1k_tokens info))) as [qc ->].
  destruct (calculate_quality_score_ok
              (get_response (generate_response c prompt))) as [qq ->].
  destruct (calculate_context_utilization_score_ok
              (length (split prompt))
              (default 4096%Z (mi_max_context_length info))) as [qu ->].
  cbn [computed_metrics List.filter].
  destruct (mem "latency" metrics), (mem "cost" metrics),
    (mem "quality" metrics), (mem "context_utilization" metrics);
    eexists; (split; [reflexivity|]); repeat split.
Qed.

End EvaluateFacts.

(** ** Aggregation over the prompts of a model *)

Section AggregateFacts.

Local Open Scope Q_scope.

Lemma selected_length (m : string) (prs : list prompt_result) :
  length (selected m prs)
  = length (List.filter (fun r => pr_success r && od_mem m (pr_metrics r)) prs).
Proof.
  unfold selected, od_mem. induction prs as [|r prs IH]; simpl in *; [reflexivity|].
  destruct (pr_success r); simpl; [|exact IH].
  destruct (od_get m (pr_metrics r)); simpl;
    first [exact IH | f_equal; exact IH].
Qed.

Lemma of_nat_succ_nonzero (n : nat) : ~ of_nat (Datatypes.S n) == 0.
Proof.
  rewrite of_nat_zero. discriminate.
Qed.

Lemma aggregate_metric_ok (prs : list prompt_result) (d : odict agg_value)
    (m : string) :
  exists d',
    aggregate_metric prs d m = inr d'
    /\ ((selected m prs = [] /\ d' = d)
        \/ exists a, d' = od_set m (AggMetric a) d
                     /\ count a = length (selected m prs)
                     /\ count a <> 0%nat).
Proof.
  unfold aggregate_metric.
  destruct (selected m prs) as [|x sel] eqn:E.
  - exists d. split; [reflexivity | now left].
  - remember (omap md_raw_value (x :: sel)) as raws eqn:Eraws. clear Eraws.
    cbn [map length].
    rewrite truediv_ok by apply of_nat_succ_nonzero.
    destruct raws as [|r raws]; cbn [bind ret].
    + eexists. split; [reflexivity|]. right.
      eexists. split; [reflexivity|]. rewrite length_map. simpl. split; congruence.
    + cbn [length]. rewrite truediv_ok by apply of_nat_succ_nonzero. cbn [bind ret].
      eexists. split; [reflexivity|]. right.
      eexists. split; [reflexivity|]. rewrite length_map. simpl. split; congruence.
Qed.

Lemma aggregated_for_step (prs : list prompt_result) (ms : list string)
    (d d' : odict agg_value) (m : string) :
  aggregated_for prs ms d ->
  aggregate_metric prs d m = inr d' ->
  aggregated_for prs (ms ++ [m]) d'.
Proof.
  intros [Hall Hget] Hstep.
  destruct (aggregate_metric_ok prs d m) as (d1 & Hd1 & Hcase).
  rewrite Hd1 in Hstep. injection Hstep as <-.
  destruct Hcase as [[Hsel ->] | (a & -> & Hcount & Hpos)].
  - split; [exact Hall|]. intros k. specialize (Hget k).
    destruct (od_get k d) as [[a|q]|]; [| exact Hget |].
    + rewrite in_app_iff. tauto.
    + destruct (String.eqb_spec k m) as [->|Hne]; [now right|].
      destruct Hget as [Hget|Hget]; [left | now right].
      rewrite in_app_iff. simpl. intuition congruence.
  - split.
    + apply Forall_od_set; [exact Hall | now exists a].
    + intros k. destruct (String.eqb_spec m k) as [->|Hne].
      * rewrite od_get_set_eq. rewrite in_app_iff. simpl. tauto.
      * rewrite od_get_set_ne by exact Hne. specialize (Hget k).
        destruct (od_get k d) as [[a'|q]|]; [| exact Hget |].
        -- rewrite in_app_iff. tauto.
        -- destruct Hget as [Hget|Hget]; [left | now right].
           rewrite in_app_iff. simpl. intuition congruence.
Qed.

Lemma aggregated_for_loop (prs : list prompt_result) (ms done : list string)
    (d : odict agg_value) :
  aggregated_for prs done d ->
  exists d',
    for_each ms (aggregate_metric prs) d = inr d'
    /\ aggregated_for prs (done ++ ms) d'.
Proof.
  revert done d. induction ms as [|m ms IH]; intros done d H; simpl.
  - exists d. rewrite app_nil_r. now split.
  - destruct (aggregate_metric_ok prs d m) as (d1 & Hd1 & _).
    rewrite Hd1. simpl.
    destruct (IH (done ++ [m]) d1) as (d' & Hd' & Hinv).
    + eapply aggregated_for_step; eassumption.
    + exists d'. split; [exact Hd'|]. now rewrite <- app_assoc in Hinv.
Qed.

Lemma aggregated_for_nil (prs : list prompt_result) : aggregated_for prs [] [].
Proof.
  split; [constructor|]. intros m. simpl. left. tauto.
Qed.

End AggregateFacts.

Section AggregateResultFacts.

Lemma metric_scores_ok (d acc : odict agg_value) (ms : odict Q) :
  Forall (fun kv => exists a, kv.2 = AggMetric a) d ->
  exists ms',
    for_each d
      (fun (s : odict Q) '(metric, data) =>
         let* avg := subscript_average_score data in ret (od_set metric avg s))
      ms = inr ms'.
Proof.
  revert ms. induction d as [|[k v] d IH]; intros ms H; simpl.
  - now exists ms.
  - apply Forall_cons in H as [[a Ha] H]. simpl in Ha. subst v. simpl.
    now apply IH.
Qed.

Lemma aggregate_prompt_results_ok (prs : list prompt_result) (metrics : list string) :
  exists agg,
    _aggregate_prompt_results prs metrics = inr agg
    /\ aggregated_ok prs metrics agg.
Proof.
  unfold _aggregate_prompt_results.
  destruct (aggregated_for_loop prs metrics [] [] (aggregated_for_nil prs))
    as (d & -> & Hall & Hget).
  simpl app in Hget. cbn [bind].
  destruct d as [|[k v] d].
  - exists []. split; [reflexivity|]. split.
    + intros m. specialize (Hget m). simpl in *. exact Hget.
    + split; [|reflexivity]. intros _ m Hm.
      specialize (Hget m). simpl in Hget. tauto.
  - destruct (metric_scores_ok ((k, v) :: d) [] [] Hall) as (ms & Hms).
    rewrite Hms. cbn [bind].
    destruct (aggregate_scores_returns ms None) as (o & Ho).
    rewrite Ho. cbn [bind ret].
    eexists. split; [reflexivity|]. split.
    + intros m. destruct (String.eqb_spec "overall_score" m) as [<-|Hne].
      * now rewrite od_get_set_eq.
      * rewrite od_get_set_ne by exact Hne. specialize (Hget m).
        destruct (od_get m ((k, v) :: d)) as [[a|q]|]; [| contradiction | exact Hget].
        split; [congruence | exact Hget].
    + split.
      * intros H. exfalso. revert H. apply od_set_not_nil.
      * intros Hnone. exfalso. specialize (Hget k). simpl in Hget.
        rewrite String.eqb_refl in Hget.
        destruct v as [a|q]; [|contradiction].
        destruct Hget as (Hin & Hcount & Hpos).
        rewrite (Hnone k Hin) in Hcount. simpl in Hcount. congruence.
Qed.

End AggregateResultFacts.

(** ** The benchmark of one model *)

Section ModelBenchmarkFacts.

Lemma comprehension_Forall2 {A B : Type} (f : A -> result B) (P : A -> B -> Prop)
    (l : list A) :
  (forall x, In x l -> exists y, f x = inr y /\ P x y) ->
  exists ys, comprehension f l = inr ys /\ Forall2 P l ys.
Proof.
  induction l as [|x l IH]; intros H; simpl.
  - exists []. split; [reflexivity | constructor].
  - destruct (H x) as (y & -> & Hy); [now left|]. simpl.
    destruct IH as (ys & -> & Hys); [intros z Hz; apply H; now right|]. simpl.
    exists (y :: ys). split; [reflexivity | now constructor].
Qed.

Lemma run_model_benchmark_ok (c : connector) (prompts metrics : list string)
    (model_id : string) :
  exists mr,
    _run_model_benchmark c prompts metrics model_id = inr mr
    /\ model_benchmarked c prompts metrics model_id mr.
Proof.
  unfold _run_model_benchmark.
  edestruct (comprehension_Forall2
               (fun '(i, prompt) =>
                  let* prompt_result :=
                    _evaluate_single_prompt c prompt metrics (get_model_info c) in
                  ret (set_prompt_index i prompt_result))
               (prompt_evaluated c metrics) (enumerate prompts))
    as (prs & Hprs & Hall).
  - intros [i p] _.
    destruct (evaluate_single_prompt_ok c p metrics (get_model_info c))
      as (r & -> & Hp & Hs & Hr & He & Hk).
    simpl. eexists. split; [reflexivity|].
    unfold prompt_evaluated. simpl. tauto.
  - rewrite Hprs. cbn [bind].
    destruct (aggregate_prompt_results_ok prs metrics) as (agg & -> & Hagg).
    cbn [bind ret]. eexists. split; [reflexivity|].
    unfold model_benchmarked. simpl. repeat split; try assumption.
    now exists agg.
Qed.

Lemma mem_filter (m : string) (p : string -> bool) (l : list string) :
  mem m (List.filter p l) = p m && mem m l.
Proof.
  apply eq_true_iff_eq. rewrite andb_true_iff, !mem_In, filter_In. tauto.
Qed.

Lemma evaluated_selected (c : connector) (metrics : list string) (m : string)
    (ips : list (nat * string)) (prs : list prompt_result) :
  Forall2 (prompt_evaluated c metrics) ips prs ->
  length (selected m prs)
  = if mem m metrics && mem m computed_metrics
    then length (List.filter (succeeded c) (map snd ips))
    else 0%nat.
Proof.
  intros H. rewrite selected_length.
  remember (mem m metrics && mem m computed_metrics) as known eqn:Eknown.
  induction H as [|[i p] r ips prs (_ & _ & Hs & _ & _ & Hk) _ IH];
    cbn [List.filter map snd length].
  - now destruct known.
  - rewrite od_mem_keys, Hk, mem_filter, <- Eknown, Hs. cbn [snd].
    destruct known; destruct (succeeded c p); cbn [andb length];
      rewrite IH; reflexivity.
Qed.

Lemma enumerate_snd {A : Type} (l : list A) : map snd (enumerate l) = l.
Proof.
  unfold enumerate. generalize 0%nat.
  induction l as [|x l IH]; intros n; simpl; [reflexivity|].
  now rewrite IH.
Qed.

Lemma benchmarked_selected (c : connector) (prompts metrics : list string)
    (model_id : string) (mr : model_result) (m : string) :
  model_benchmarked c prompts metrics model_id mr ->
  length (selected m (mr_prompt_results mr))
  = if mem m metrics && mem m computed_metrics
    then n_succeeded c prompts else 0%nat.
Proof.
  intros (_ & _ & Hall & _).
  rewrite (evaluated_selected c metrics m _ _ Hall).
  now rewrite enumerate_snd.
Qed.

End ModelBenchmarkFacts.

(** ** Failed generations *)

Section FailedGenerations.

Lemma enumerate_lookup {A : Type} (l : list A) (i : nat) (x : A) :
  l !! i = Some x -> enumerate l !! i = Some (i, x).
Proof.
  unfold enumerate. intros H.
  assert (Hgen : forall n, combine (seq n (length l)) l !! i = Some ((n + i)%nat, x)).
  { revert i H. induction l as [|y l IH]; intros i H n; [discriminate|].
    destruct i as [|i]; simpl in *.
    - injection H as ->. do 2 f_equal. lia.
    - rewrite (IH i H (Datatypes.S n)). do 2 f_equal. lia. }
  exact (Hgen 0%nat).
Qed.

(** Counterexample to C1 as stated: the connector of the model ["bad"]
    fails, and the prompt result of its one prompt holds the three requested
    metrics. *)
Lemma failed_generation_has_metrics :
  exists mr r,
    _run_model_benchmark Examples.failing_connector ["p0"%string]
      default_metrics "bad"%string = inr mr
    /\ mr_prompt_results mr = [r]
    /\ pr_success r = false
    /\ od_keys (pr_metrics r) = ["latency"; "cost"; "quality"]%string
    /\ pr_metrics r <> [].
Proof.
  do 2 eexists. split; [vm_compute; reflexivity|].
  split; [reflexivity|]. split; [reflexivity|]. split; [reflexivity|].
  discriminate.
Qed.

(** Three prompts answered in 0.5, 5 and 11 seconds: the latency scores
    are 100, 500/9 and 0, and their aggregate has count 3 and an average
    between 51.85 and 51.86. *)
Example latency_aggregate :
  exists mr agg a,
    _run_model_benchmark Examples.timed_connector ["p0"; "p1"; "p2"]%string
      ["latency"%string] "timed"%string = inr mr
    /\ map (fun r => md_score <$> od_get "latency" (pr_metrics r))
           (mr_prompt_results mr)
       = [Some 100%Q; Some (500 / 9)%Q; Some 0%Q]
    /\ mr_aggregated_metrics mr = Some agg
    /\ od_get "latency" agg = Some (AggMetric a)
    /\ count a = 3%nat
    /\ (51.85 <= average_score a <= 51.86)%Q.
Proof.
  do 3 eexists. split; [vm_compute; reflexivity|].
  split; [vm_compute; reflexivity|].
  split; [reflexivity|]. split; [reflexivity|]. split; [reflexivity|].
  split; now vm_compute.
Qed.

(** C1, amended: every prompt, failed or not, gets a prompt result, in the
    order of the prompts, that records the success flag and holds an entry
    for every requested metric among latency, cost, quality and
    context_utilization; failed evaluations are left out of the aggregation:
    the count of an aggregate is the number of succeeded evaluations, a
    requested metric among the four has an aggregate as soon as one
    evaluation succeeded, and with no succeeded evaluation nothing is
    aggregated at all. *)
Theorem failed_generation_kept_not_aggregated
    (c : connector) (prompts metrics : list string) (model_id : string) :
  exists mr agg,
    _run_model_benchmark c prompts metrics model_id = inr mr
    /\ mr_aggregated_metrics mr = Some agg
    /\ length (mr_prompt_results mr) = length prompts
    /\ (forall i p, prompts !! i = Some p ->
         exists r, mr_prompt_results mr !! i = Some r
                   /\ pr_prompt r = p
                   /\ pr_prompt_index r = Some i
                   /\ pr_success r = succeeded c p
                   /\ od_keys (pr_metrics r)
                      = List.filter (fun k => mem k metrics) computed_metrics)
    /\ (forall m a, od_get m agg = Some (AggMetric a) ->
         count a = n_succeeded c prompts /\ count a <> 0%nat)
    /\ (forall m, In m metrics -> In m computed_metrics ->
         n_succeeded c prompts <> 0%nat ->
         exists a, od_get m agg = Some (AggMetric a)
                   /\ count a = n_succeeded c prompts)
    /\ (n_succeeded c prompts = 0%nat -> agg = []).
Proof.
  destruct (run_model_benchmark_ok c prompts metrics model_id) as (mr & Hrun & Hmr).
  pose proof (benchmarked_selected c prompts metrics model_id mr) as Hsel.
  destruct Hmr as (Hid & Hinfo & Hall & agg & Hagg & Hget & Hnil).
  assert (Hmr : model_benchmarked c prompts metrics model_id mr).
  { unfold model_benchmarked. repeat split; try assumption.
    exists agg. now split. }
  exists mr, agg. repeat apply conj; try assumption.
  - apply Forall2_length in Hall. unfold enumerate in Hall.
    rewrite length_combine, length_seq in Hall. lia.
  - intros i p Hp. apply enumerate_lookup in Hp.
    destruct (Forall2_lookup_l _ _ _ _ _ Hall Hp)
      as (r & Hr & Hi & Hprompt & Hs & _ & _ & Hk).
    exists r. simpl in *. tauto.
  - intros m a Ha. specialize (Hget m). rewrite Ha in Hget.
    destruct Hget as (_ & _ & Hcount & Hpos).
    rewrite (Hsel m Hmr) in Hcount.
    destruct (mem m metrics && mem m computed_metrics); [|congruence].
    rewrite Hcount in Hpos |- *. now split.
  - intros m Hm Hk Hn. specialize (Hget m). specialize (Hsel m Hmr).
    rewrite (proj2 (mem_In m metrics) Hm),
      (proj2 (mem_In m computed_metrics) Hk) in Hsel. simpl in Hsel.
    destruct (od_get m agg) as [[a|q]|].
    + exists a. split; [reflexivity|].
      destruct Hget as (_ & _ & Hcount & _). now rewrite Hcount.
    + subst m. exfalso. revert Hk. vm_compute. intuition discriminate.
    + exfalso. destruct Hget as [Hget|Hget]; [contradiction|].
      rewrite Hget in Hsel. simpl in Hsel. congruence.
  - intros Hn. apply Hnil. intros m Hm. specialize (Hsel m Hmr).
    rewrite Hn in Hsel.
    destruct (mem m metrics && mem m computed_metrics);
      now apply length_zero_iff_nil.
Qed.

End FailedGenerations.

(** ** The loop over the requested models *)

Section RunLoopFacts.

Lemma index_of_In (x : string) (l : list string) :
  In x l -> exists i, index_of x l = Some i.
Proof.
  induction l as [|y l IH]; simpl; [tauto|].
  intros H. destruct (String.eqb_spec x y) as [->|Hne]; [now exists 0%nat|].
  destruct IH as [i ->]; [intuition congruence|]. now exists (Datatypes.S i).
Qed.

Lemma index_of_cons_ne (x y : string) (l : list string) (i : nat) :
  x <> y -> index_of x l = Some i -> index_of x (y :: l) = Some (Datatypes.S i).
Proof.
  intros Hne H. simpl. destruct (String.eqb_spec x y); [contradiction|].
  now rewrite H.
Qed.

Lemma fresh_keys_In (keep : string -> bool) (seen l : list string) (y : string) :
  In y (fresh_keys keep seen l) <-> In y l /\ ~ In y seen /\ keep y = true.
Proof.
  revert seen. induction l as [|x l IH]; intros seen; simpl; [tauto|].
  destruct (keep x) eqn:Ek; simpl.
  - destruct (mem x seen) eqn:Em; simpl.
    + apply mem_In in Em. rewrite IH. intuition congruence.
    + apply mem_false in Em. rewrite IH, in_app_iff. simpl.
      destruct (String.eqb_spec x y) as [->|Hne]; intuition congruence.
  - rewrite IH. intuition congruence.
Qed.

Lemma fresh_keys_NoDup (keep : string -> bool) (seen l : list string) :
  NoDup (fresh_keys keep seen l).
Proof.
  revert seen. induction l as [|x l IH]; intros seen; simpl; [constructor|].
  destruct (keep x && negb (mem x seen)); [|apply IH].
  apply NoDup_cons. split; [|apply IH].
  rewrite list_elem_of_In, fresh_keys_In, in_app_iff. simpl. tauto.
Qed.

(** The order of the kept keys is the order of first occurrence. *)
Lemma fresh_keys_before (keep : string -> bool) (seen l : list string) (a b : string) :
  before (fresh_keys keep seen l) a b ->
  exists i j, index_of a l = Some i /\ index_of b l = Some j /\ (i < j)%nat.
Proof.
  revert seen. induction l as [|x l IH]; intros seen H; simpl in H.
  - inversion H.
  - destruct (keep x && negb (mem x seen)) eqn:E.
    + inversion H as [a' b' l' Hin | z a' b' l' Hb]; subst.
      * apply fresh_keys_In in Hin as (Hin & Hseen & _).
        rewrite in_app_iff in Hseen. simpl in Hseen.
        destruct (index_of_In b l Hin) as [j Hj].
        exists 0%nat, (Datatypes.S j). simpl. rewrite String.eqb_refl.
        destruct (String.eqb_spec b a) as [->|_]; [tauto|].
        rewrite Hj. repeat split. lia.
      * destruct (before_In _ _ _ Hb) as [Ha' Hb'].
        apply fresh_keys_In in Ha' as (_ & Ha' & _).
        apply fresh_keys_In in Hb' as (_ & Hb' & _).
        rewrite in_app_iff in Ha', Hb'. simpl in Ha', Hb'.
        destruct (IH _ Hb) as (i & j & Hi & Hj & Hij).
        exists (Datatypes.S i), (Datatypes.S j).
        rewrite (index_of_cons_ne a x l i), (index_of_cons_ne b x l j);
          try assumption; try (intros ->; tauto).
        repeat split. lia.
    + destruct (before_In _ _ _ H) as [Ha' Hb'].
      apply fresh_keys_In in Ha' as (_ & Ha' & Hka).
      apply fresh_keys_In in Hb' as (_ & Hb' & Hkb).
      assert (Hx : forall y, ~ In y seen -> keep y = true -> y <> x).
      { intros y Hy Hk ->. rewrite Hk in E. simpl in E.
        apply negb_false_iff, mem_In in E. contradiction. }
      destruct (IH _ H) as (i & j & Hi & Hj & Hij).
      exists (Datatypes.S i), (Datatypes.S j).
      rewrite (index_of_cons_ne a x l i), (index_of_cons_ne b x l j); auto.
      repeat split. lia.
Qed.

Lemma run_loop_ok (models : gmap string model_config) (prompts metrics : list string)
    (model_ids : list string) (acc : odict model_result) :
  Forall (entry_ok models prompts metrics) acc ->
  exists results,
    for_each model_ids (run_model models prompts metrics) acc = inr results
    /\ Forall (entry_ok models prompts metrics) results
    /\ od_keys results
       = od_keys acc ++ fresh_keys (resolvable models) (od_keys acc) model_ids.
Proof.
  revert acc. induction model_ids as [|x l IH]; intros acc Hacc; simpl.
  - exists acc. rewrite app_nil_r. now repeat split.
  - unfold run_model at 1, resolvable at 1.
    destruct (get_model_connector models x) as [c|] eqn:Ec; simpl.
    + destruct (run_model_benchmark_ok c prompts metrics x) as (mr & Hmr & _).
      rewrite Hmr. simpl.
      destruct (IH (od_set x mr acc)) as (results & Hres & Hall & Hkeys).
      { apply Forall_od_set; [exact Hacc|]. exists c. now split. }
      exists results. split; [exact Hres|]. split; [exact Hall|].
      rewrite Hkeys, od_keys_set.
      destruct (mem x (od_keys acc)); simpl; [reflexivity|].
      now rewrite <- app_assoc.
    + destruct (IH acc Hacc) as (results & Hres & Hall & Hkeys).
      exists results. now repeat split.
Qed.

End RunLoopFacts.

(** ** The summary *)

Section SummaryFacts.

Lemma collect_model_scores_acc (results : odict model_result)
    (acc : odict (odict agg_value)) :
  NoDup (od_keys acc ++ od_keys results) ->
  Forall (fun kv => is_Some (mr_aggregated_metrics kv.2)) results ->
  fold_left
    (fun model_scores '(model_id, model_data) =>
       match mr_aggregated_metrics model_data with
       | Some aggregated_metrics => od_set model_id aggregated_metrics model_scores
       | None => model_scores
       end)
    results acc
  = acc ++ model_scores_of results.
Proof.
  revert acc. induction results as [|[k mr] results IH]; intros acc Hnd Hall; simpl.
  - now rewrite app_nil_r.
  - apply Forall_cons in Hall as [[agg Hagg] Hall]. simpl in Hagg.
    rewrite Hagg. simpl.
    simpl in Hnd. rewrite od_set_fresh.
    + rewrite IH; [now rewrite <- app_assoc | | exact Hall].
      unfold od_keys in *. rewrite map_app, <- app_assoc. exact Hnd.
    + apply NoDup_app in Hnd as (_ & Hdisj & _).
      intros Hin. apply (Hdisj k); [now apply list_elem_of_In | left].
Qed.

Lemma collect_model_scores_ok (results : odict model_result) :
  NoDup (od_keys results) ->
  Forall (fun kv => is_Some (mr_aggregated_metrics kv.2)) results ->
  collect_model_scores results = model_scores_of results.
Proof.
  intros Hnd Hall. unfold collect_model_scores.
  now rewrite collect_model_scores_acc.
Qed.

Lemma get_overall_score_ok (agg : odict agg_value) :
  agg_wf agg -> get_overall_score agg = inr (overall_of agg).
Proof.
  intros H. specialize (H "overall_score"%string).
  unfold get_overall_score, overall_of.
  destruct (od_get "overall_score" agg) as [[a|q]|]; [congruence | reflexivity..].
Qed.

Lemma get_average_score_ok (metric : string) (agg : odict agg_value) :
  agg_wf agg -> metric <> "overall_score"%string ->
  get_average_score metric agg = inr (average_of metric agg).
Proof.
  intros H Hne. specialize (H metric).
  unfold get_average_score, average_of.
  destruct (od_get metric agg) as [[a|q]|]; [reflexivity | congruence | reflexivity].
Qed.

Lemma rank_metric_ok (ms : odict (odict agg_value)) (s : summary) (metric : string) :
  Forall (fun kv => agg_wf kv.2) ms ->
  metric <> "overall_score"%string ->
  rank_metric ms s metric = inr (rank_metric_step ms s metric).
Proof.
  intros Hwf Hne. unfold rank_metric.
  rewrite (comprehension_map _ (fun kv => (kv.1, average_of metric kv.2))).
  - reflexivity.
  - intros [k agg] Hin. rewrite Forall_forall in Hwf.
    rewrite get_average_score_ok; [reflexivity | | exact Hne].
    apply (Hwf (k, agg)). now apply list_elem_of_In.
Qed.

Lemma calculate_summary_ok (results : odict model_result) (metrics : list string) :
  NoDup (od_keys results) ->
  Forall (fun kv => exists agg, mr_aggregated_metrics kv.2 = Some agg /\ agg_wf agg)
         results ->
  ~ In "overall_score"%string metrics ->
  _calculate_summary results metrics
  = inr (summary_of (model_scores_of results) metrics).
Proof.
  intros Hnd Hall Hno. unfold _calculate_summary.
  rewrite collect_model_scores_ok; [|exact Hnd|].
  2:{ eapply Forall_impl; [exact Hall|]. intros kv (agg & -> & _). now exists agg. }
  assert (Hwf : Forall (fun kv => agg_wf kv.2) (model_scores_of results)).
  { unfold model_scores_of. apply Forall_map.
    eapply Forall_impl; [exact Hall|]. intros kv (agg & -> & H). exact H. }
  unfold summary_of.
  destruct (model_scores_of results) as [|kv ms] eqn:E; [reflexivity|].
  rewrite (comprehension_map _ (fun kv => (kv.1, overall_of kv.2))).
  - cbn [bind rankings od_set best_performers metric_averages].
    apply for_each_fold. intros s m Hm.
    apply rank_metric_ok; [exact Hwf | congruence].
  - intros [k agg] Hin. rewrite Forall_forall in Hwf.
    rewrite get_overall_score_ok; [reflexivity|].
    apply (Hwf (k, agg)). now apply list_elem_of_In.
Qed.

Lemma fold_rankings (ms : odict (odict agg_value)) (metrics : list string)
    (s : summary) (k : string) :
  od_get k (rankings (fold_left (rank_metric_step ms) metrics s))
  = if mem k metrics then Some (metric_ranking k ms) else od_get k (rankings s).
Proof.
  revert s. induction metrics as [|m metrics IH]; intros s; [reflexivity|].
  cbn [fold_left]. rewrite IH.
  unfold mem. cbn [existsb]. fold (mem k metrics).
  destruct (mem k metrics); [now rewrite orb_true_r|]. rewrite orb_false_r.
  cbn [rank_metric_step rankings].
  destruct (String.eqb_spec k m) as [->|Hne].
  - now rewrite od_get_set_eq.
  - rewrite od_get_set_ne by congruence. reflexivity.
Qed.

Lemma fold_best_performers (ms : odict (odict agg_value)) (metrics : list string)
    (s : summary) (k : string) :
  ms <> [] ->
  od_get k (best_performers (fold_left (rank_metric_step ms) metrics s))
  = if mem k metrics then option_map re_model_id (head (metric_ranking k ms))
    else od_get k (best_performers s).
Proof.
  intros Hms. revert s. induction metrics as [|m metrics IH]; intros s; [reflexivity|].
  cbn [fold_left]. rewrite IH.
  unfold mem. cbn [existsb]. fold (mem k metrics).
  destruct (mem k metrics); [now rewrite orb_true_r|]. rewrite orb_false_r.
  cbn [rank_metric_step best_performers]. unfold metric_ranking.
  destruct (sorted_desc snd (metric_pairs m ms)) as [|top rest] eqn:E.
  - exfalso. apply (f_equal length) in E.
    rewrite sorted_desc_length in E. unfold metric_pairs in E.
    rewrite length_map in E. destruct ms; [congruence | discriminate].
  - destruct (String.eqb_spec k m) as [->|Hne].
    + rewrite od_get_set_eq, E. reflexivity.
    + rewrite od_get_set_ne by congruence. reflexivity.
Qed.

End SummaryFacts.

(** ** Rankings *)

Section RankingFacts.

Lemma descending_map {A B : Type} (f : A -> B) (key : B -> Q) (l : list A) :
  descending (fun x => key (f x)) l -> descending key (map f l).
Proof.
  intros H i j a b Ha Hb Hij.
  change (map f l) with (f <$> l) in Ha, Hb.
  rewrite list_lookup_fmap in Ha, Hb.
  destruct (l !! i) as [x|] eqn:Ex; [|discriminate].
  destruct (l !! j) as [y|] eqn:Ey; [|discriminate].
  injection Ha as <-. injection Hb as <-.
  exact (H i j x y Ex Ey Hij).
Qed.

Variable f : odict agg_value -> Q.
Variable results : odict model_result.

Lemma ranking_by_ids :
  Permutation (map re_model_id (ranking_by f results)) (od_keys results).
Proof.
  unfold ranking_by, model_scores_of, od_keys.
  rewrite map_map. cbn [entry re_model_id].
  change (map (fun x : string * Q => x.1)) with (@map (string * Q) _ fst).
  rewrite <- sorted_desc_Permutation. rewrite !map_map. reflexivity.
Qed.

Lemma ranking_by_length : length (ranking_by f results) = length results.
Proof.
  unfold ranking_by, model_scores_of.
  now rewrite length_map, sorted_desc_length, !length_map.
Qed.

Lemma ranking_by_descending : descending re_score (ranking_by f results).
Proof.
  unfold ranking_by. apply descending_map. cbn [entry re_score].
  apply (sorted_desc_descending snd).
Qed.

Lemma ranking_by_entry (e : ranking_entry) :
  In e (ranking_by f results) ->
  exists mr,
    In (re_model_id e, mr) results
    /\ re_score e = f (default [] (mr_aggregated_metrics mr)).
Proof.
  unfold ranking_by, model_scores_of. intros H.
  apply in_map_iff in H as ([k q] & <- & H).
  apply sorted_desc_In in H. rewrite map_map in H.
  apply in_map_iff in H as ([k' mr] & [= <- <-] & H).
  exists mr. now split.
Qed.

(** Entries with equal scores stand in the order of [results]. *)
Lemma ranking_by_stable (e1 e2 : ranking_entry) :
  before (ranking_by f results) e1 e2 ->
  (re_score e1 == re_score e2)%Q ->
  before (od_keys results) (re_model_id e1) (re_model_id e2).
Proof.
  unfold ranking_by. intros H E.
  apply before_map_inv in H as ([k1 q1] & [k2 q2] & <- & <- & H).
  simpl in E. apply sorted_desc_stable in H; [|exact E].
  apply (before_map fst) in H. rewrite map_map in H.
  unfold model_scores_of in H. rewrite map_map in H. exact H.
Qed.

End RankingFacts.

(** ** The whole run *)

Section RunFacts.

Lemma aggregated_ok_wf (prs : list prompt_result) (metrics : list string)
    (agg : odict agg_value) :
  aggregated_ok prs metrics agg -> agg_wf agg.
Proof.
  intros [H _] m. specialize (H m).
  destruct (od_get m agg) as [[a|q]|]; tauto.
Qed.

Lemma entry_ok_benchmarked (models : gmap string model_config)
    (prompts metrics : list string) (kv : string * model_result) :
  entry_ok models prompts metrics kv ->
  exists c,
    get_model_connector models kv.1 = Some c
    /\ model_benchmarked c prompts metrics kv.1 kv.2.
Proof.
  intros (c & Hc & Hrun). exists c. split; [exact Hc|].
  destruct (run_model_benchmark_ok c prompts metrics kv.1) as (mr & Hmr & H).
  rewrite Hmr in Hrun. injection Hrun as <-. exact H.
Qed.

Lemma entries_wf (models : gmap string model_config)
    (prompts metrics : list string) (results : odict model_result) :
  Forall (entry_ok models prompts metrics) results ->
  Forall (fun kv => exists agg, mr_aggregated_metrics kv.2 = Some agg /\ agg_wf agg)
         results.
Proof.
  intros H. eapply Forall_impl; [exact H|].
  intros kv Hkv. apply entry_ok_benchmarked in Hkv as (c & _ & _ & _ & _ & agg & Ha & Hok).
  exists agg. split; [exact Ha|]. eapply aggregated_ok_wf. exact Hok.
Qed.

Lemma run_benchmark_ok (self : runner) (benchmark_id : string) (now : Q)
    (prompts model_ids : list string) (metrics : option (list string)) :
  ~ In "overall_score"%string (effective_metrics metrics) ->
  exists results,
    for_each model_ids
      (run_model (model_manager self) prompts (effective_metrics metrics)) []
    = inr results
    /\ od_keys results = resolved_ids (model_manager self) model_ids
    /\ Forall (entry_ok (model_manager self) prompts (effective_metrics metrics)) results
    /\ run_benchmark self benchmark_id now prompts model_ids metrics
       = inr (run_of benchmark_id now prompts model_ids metrics results,
              {| model_manager := model_manager self;
                 results_store :=
                   <[benchmark_id :=
                       run_of benchmark_id now prompts model_ids metrics results]>
                     (results_store self) |}).
Proof.
  intros Hno. unfold run_benchmark. fold (effective_metrics metrics).
  destruct (run_loop_ok (model_manager self) prompts (effective_metrics metrics)
              model_ids []) as (results & Hloop & Hall & Hkeys); [constructor|].
  simpl in Hkeys. exists results.
  split; [exact Hloop|]. split; [exact Hkeys|]. split; [exact Hall|].
  rewrite Hloop. cbn [bind].
  rewrite calculate_summary_ok; [reflexivity | | | exact Hno].
  - rewrite Hkeys. apply fresh_keys_NoDup.
  - eapply entries_wf. exact Hall.
Qed.

Lemma summary_rankings (results : odict model_result) (metrics : list string)
    (name : string) :
  results <> [] ->
  od_get name (rankings (summary_of (model_scores_of results) metrics))
  = if mem name metrics then Some (ranking_by (average_of name) results)
    else if String.eqb name "overall" then Some (ranking_by overall_of results)
    else None.
Proof.
  intros Hne. unfold summary_of.
  destruct (model_scores_of results) as [|kv ms] eqn:E.
  { destruct results; [congruence | discriminate]. }
  rewrite fold_rankings, <- E. reflexivity.
Qed.

Lemma summary_best_performers (results : odict model_result) (metrics : list string)
    (name : string) :
  results <> [] ->
  od_get name (best_performers (summary_of (model_scores_of results) metrics))
  = if mem name metrics
    then option_map re_model_id (head (ranking_by (average_of name) results))
    else None.
Proof.
  intros Hne. unfold summary_of.
  destruct (model_scores_of results) as [|kv ms] eqn:E.
  { destruct results; [congruence | discriminate]. }
  rewrite fold_best_performers by discriminate. rewrite <- E. reflexivity.
Qed.

End RunFacts.

(** ** Rankings of a run *)

Section RunRankings.

Lemma resolved_ids_In (models : gmap string model_config) (model_ids : list string)
    (m : string) :
  In m (resolved_ids models model_ids)
  <-> In m model_ids /\ resolvable models m = true.
Proof.
  unfold resolved_ids. rewrite fresh_keys_In. simpl. tauto.
Qed.

Lemma head_In {A : Type} (l : list A) (x : A) : head l = Some x -> In x l.
Proof.
  destruct l as [|y l]; [discriminate|]. intros [= ->]. now left.
Qed.

(** An entry of a ranking names a model of [results] and carries the score
    of its aggregated metrics. *)
Lemma ranking_entry_model (f : odict agg_value -> Q) (models : gmap string model_config)
    (prompts metrics : list string) (results : odict model_result)
    (e : ranking_entry) :
  NoDup (od_keys results) ->
  Forall (entry_ok models prompts metrics) results ->
  In e (ranking_by f results) ->
  exists mr agg,
    od_get (re_model_id e) results = Some mr
    /\ mr_aggregated_metrics mr = Some agg
    /\ re_score e = f agg.
Proof.
  intros Hnd Hall He.
  apply ranking_by_entry in He as (mr & Hin & Hscore).
  pose proof Hin as Hin'.
  rewrite Forall_forall in Hall. apply list_elem_of_In, Hall in Hin'.
  apply entry_ok_benchmarked in Hin' as (c & _ & _ & _ & _ & agg & Hagg & _).
  simpl in Hagg. exists mr, agg. split; [now apply od_In_get|].
  split; [exact Hagg|]. now rewrite Hscore, Hagg.
Qed.

(** Every ranking of a summary is the overall ranking or the ranking of a
    requested metric. *)
Lemma summary_ranking_cases (results : odict model_result) (metrics : list string)
    (name : string) (R : list ranking_entry) :
  od_get name (rankings (summary_of (model_scores_of results) metrics)) = Some R ->
  results <> []
  /\ exists f, R = ranking_by f results.
Proof.
  destruct results as [|kv results]; [discriminate|].
  rewrite summary_rankings by discriminate.
  intros H. split; [discriminate|].
  destruct (mem name metrics); [injection H as <-; now eexists|].
  destruct (String.eqb name "overall"); [injection H as <-; now eexists | discriminate].
Qed.

End RunRankings.

(** ** The overall ranking *)

Section OverallRanking.

Local Open Scope string_scope.

(** Counterexample to C2 as stated: in a run over the models ["good"] and
    ["bad"], the connector of ["bad"] fails on both prompts and its
    aggregated metrics are empty, yet the overall ranking has two entries,
    the second being ["bad"] with score 0. *)
Lemma failing_model_in_overall_ranking :
  exists run self' good_score,
    run_benchmark Examples.fresh_runner "run-1" 0 ["p0"; "p1"] ["good"; "bad"] None
    = inr (run, self')
    /\ (exists mr, od_get "bad" (br_results run) = Some mr
                   /\ mr_aggregated_metrics mr = Some [])
    /\ od_get "overall" (rankings (br_summary run))
       = Some [ {| re_model_id := "good"; re_score := good_score |};
                {| re_model_id := "bad"; re_score := 0 |} ].
Proof.
  do 3 eexists. split; [vm_compute; reflexivity|].
  split; [eexists; split; reflexivity | reflexivity].
Qed.

(** C2, amended: the overall ranking has one entry for every model of
    [results], in decreasing order of score; the score of a model is its
    overall score, and it is 0 for a model whose aggregated metrics are
    empty, which is listed like the others. With no model in [results] the
    summary has no overall ranking. *)
Theorem overall_ranking_lists_every_model
    (self : runner) (benchmark_id : string) (now : Q)
    (prompts model_ids : list string) (metrics : option (list string)) :
  ~ In "overall_score" (effective_metrics metrics) ->
  ~ In "overall" (effective_metrics metrics) ->
  exists run self',
    run_benchmark self benchmark_id now prompts model_ids metrics = inr (run, self')
    /\ (br_results run = [] ->
        od_get "overall" (rankings (br_summary run)) = None)
    /\ (br_results run <> [] ->
        exists R,
          od_get "overall" (rankings (br_summary run)) = Some R
          /\ Permutation (map re_model_id R) (od_keys (br_results run))
          /\ length R = length (br_results run)
          /\ descending re_score R
          /\ forall e, In e R ->
               exists mr agg,
                 od_get (re_model_id e) (br_results run) = Some mr
                 /\ mr_aggregated_metrics mr = Some agg
                 /\ re_score e = overall_of agg
                 /\ (agg = [] -> re_score e = 0%Q)).
Proof.
  intros Hno Hoverall.
  destruct (run_benchmark_ok self benchmark_id now prompts model_ids metrics Hno)
    as (results & _ & Hkeys & Hall & Hrun).
  eexists _, _. split; [exact Hrun|].
  cbn [run_of br_summary br_results]. split.
  { intros ->. reflexivity. }
  intros Hne. exists (ranking_by overall_of results).
  split.
  { rewrite summary_rankings by exact Hne.
    rewrite (proj2 (mem_false _ _) Hoverall). reflexivity. }
  split; [apply ranking_by_ids|].
  split; [apply ranking_by_length|].
  split; [apply ranking_by_descending|].
  intros e He.
  destruct (ranking_entry_model overall_of (model_manager self) prompts
              (effective_metrics metrics) results e) as (mr & agg & Hmr & Hagg & Hs);
    [rewrite Hkeys; apply fresh_keys_NoDup | exact Hall | exact He |].
  exists mr, agg. repeat split; try assumption.
  intros ->. exact Hs.
Qed.

(** The theorem applies to the run of the counterexample: its overall
    ranking has an entry for each of the two models. *)
Lemma overall_ranking_lists_every_model_example :
  exists run self',
    run_benchmark Examples.fresh_runner "run-1" 0 ["p0"; "p1"] ["good"; "bad"] None
    = inr (run, self')
    /\ (br_results run = [] ->
        od_get "overall" (rankings (br_summary run)) = None)
    /\ (br_results run <> [] ->
        exists R,
          od_get "overall" (rankings (br_summary run)) = Some R
          /\ Permutation (map re_model_id R) (od_keys (br_results run))
          /\ length R = length (br_results run)
          /\ descending re_score R
          /\ forall e, In e R ->
               exists mr agg,
                 od_get (re_model_id e) (br_results run) = Some mr
                 /\ mr_aggregated_metrics mr = Some agg
                 /\ re_score e = overall_of agg
                 /\ (agg = [] -> re_score e = 0%Q)).
Proof.
  apply (overall_ranking_lists_every_model
           Examples.fresh_runner "run-1" 0 ["p0"; "p1"] ["good"; "bad"] None).
  - vm_compute. intuition discriminate.
  - vm_compute. intuition discriminate.
Defined.

End OverallRanking.

(** ** The ranking of a metric *)

Section MetricRanking.

Local Open Scope string_scope.

(** C3: for a requested metric, the ranking of the metric has one entry
    for every model of [results], in decreasing order of score; the score of
    a model is the average score of its aggregate for the metric, and 0 when
    it has none; the best performer of the metric is the model of the first
    entry. With no model in [results] the summary has no ranking and no best
    performer. *)
Theorem metric_ranking_lists_every_model
    (self : runner) (benchmark_id : string) (now : Q)
    (prompts model_ids : list string) (metrics : option (list string))
    (metric : string) :
  ~ In "overall_score" (effective_metrics metrics) ->
  In metric (effective_metrics metrics) ->
  exists run self',
    run_benchmark self benchmark_id now prompts model_ids metrics = inr (run, self')
    /\ (br_results run = [] ->
        rankings (br_summary run) = [] /\ best_performers (br_summary run) = [])
    /\ (br_results run <> [] ->
        exists R,
          od_get metric (rankings (br_summary run)) = Some R
          /\ R <> []
          /\ Permutation (map re_model_id R) (od_keys (br_results run))
          /\ descending re_score R
          /\ (forall e, In e R ->
               exists mr agg,
                 od_get (re_model_id e) (br_results run) = Some mr
                 /\ mr_aggregated_metrics mr = Some agg
                 /\ re_score e = average_of metric agg
                 /\ (od_get metric agg = None -> re_score e = 0%Q)
                 /\ (forall a, od_get metric agg = Some (AggMetric a) ->
                       re_score e = average_score a))
          /\ od_get metric (best_performers (br_summary run))
             = option_map re_model_id (head R)).
Proof.
  intros Hno Hin.
  destruct (run_benchmark_ok self benchmark_id now prompts model_ids metrics Hno)
    as (results & _ & Hkeys & Hall & Hrun).
  eexists _, _. split; [exact Hrun|].
  cbn [run_of br_summary br_results]. split.
  { intros ->. split; reflexivity. }
  intros Hne. exists (ranking_by (average_of metric) results).
  apply mem_In in Hin.
  split; [rewrite summary_rankings by exact Hne; now rewrite Hin|].
  split.
  { intros E. apply (f_equal length) in E. rewrite ranking_by_length in E.
    destruct results; [congruence | discriminate]. }
  split; [apply ranking_by_ids|].
  split; [apply ranking_by_descending|].
  split.
  - intros e He.
    destruct (ranking_entry_model (average_of metric) (model_manager self) prompts
                (effective_metrics metrics) results e)
      as (mr & agg & Hmr & Hagg & Hs);
      [rewrite Hkeys; apply fresh_keys_NoDup | exact Hall | exact He |].
    exists mr, agg. repeat split; try assumption.
    + intros Hnone. rewrite Hs. unfold average_of. now rewrite Hnone.
    + intros a Ha. rewrite Hs. unfold average_of. now rewrite Ha.
  - rewrite summary_best_performers by exact Hne. now rewrite Hin.
Qed.

(** The theorem applies to the latency ranking of a run over a working and
    a failing model. *)
Lemma metric_ranking_lists_every_model_example :
  exists run self',
    run_benchmark Examples.fresh_runner "run-1" 0 ["p0"; "p1"] ["good"; "bad"] None
    = inr (run, self')
    /\ (br_results run = [] ->
        rankings (br_summary run) = [] /\ best_performers (br_summary run) = [])
    /\ (br_results run <> [] ->
        exists R,
          od_get "latency" (rankings (br_summary run)) = Some R
          /\ R <> []
          /\ Permutation (map re_model_id R) (od_keys (br_results run))
          /\ descending re_score R
          /\ (forall e, In e R ->
               exists mr agg,
                 od_get (re_model_id e) (br_results run) = Some mr
                 /\ mr_aggregated_metrics mr = Some agg
                 /\ re_score e = average_of "latency" agg
                 /\ (od_get "latency" agg = None -> re_score e = 0%Q)
                 /\ (forall a, od_get "latency" agg = Some (AggMetric a) ->
                       re_score e = average_score a))
          /\ od_get "latency" (best_performers (br_summary run))
             = option_map re_model_id (head R)).
Proof.
  apply (metric_ranking_lists_every_model
           Examples.fresh_runner "run-1" 0 ["p0"; "p1"] ["good"; "bad"] None "latency").
  - vm_compute. intuition discriminate.
  - vm_compute. tauto.
Defined.

End MetricRanking.

(** ** Completion of a run *)

Section Completion.

Local Open Scope string_scope.

(** Counterexample to C7 as stated: with an empty prompt list and one
    resolvable model the results are not empty; the model has an entry, and
    the overall ranking lists it. *)
Lemma empty_prompts_nonempty_results :
  exists run self' mr,
    run_benchmark Examples.fresh_runner "run-1" 0 [] ["good"] None = inr (run, self')
    /\ br_results run = [("good", mr)]
    /\ br_results run <> []
    /\ od_get "overall" (rankings (br_summary run))
       = Some [ {| re_model_id := "good"; re_score := 0 |} ].
Proof.
  do 3 eexists. split; [vm_compute; reflexivity|].
  split; [reflexivity|]. split; [discriminate | reflexivity].
Qed.

Lemma benchmarked_no_prompts (c : connector) (metrics : list string)
    (model_id : string) (mr : model_result) :
  model_benchmarked c [] metrics model_id mr ->
  mr_prompt_results mr = [] /\ mr_aggregated_metrics mr = Some [].
Proof.
  intros (_ & _ & Hall & agg & Hagg & _ & Hnil).
  change (enumerate []) with (@nil (nat * string)) in Hall.
  apply Forall2_nil_inv_l in Hall. split; [exact Hall|].
  rewrite Hagg. f_equal. apply Hnil. rewrite Hall. reflexivity.
Qed.

(** C7, amended: [run_benchmark] returns a complete run, stored under its
    identifier, for all prompts and model ids. The keys of [results] are the
    requested ids that resolve to a connector, in the order of their first
    occurrence, and each entry is the benchmark of the connector of its key;
    an id that does not resolve has no entry in [results], is in no ranking
    and is no best performer. An empty model list gives empty results and an
    empty summary; an empty prompt list gives, for every resolved model, an
    entry with no prompt results and no aggregated metrics. *)
Theorem run_benchmark_completes
    (self : runner) (benchmark_id : string) (now : Q)
    (prompts model_ids : list string) (metrics : option (list string)) :
  ~ In "overall_score" (effective_metrics metrics) ->
  exists run self',
    run_benchmark self benchmark_id now prompts model_ids metrics = inr (run, self')
    /\ get_results self' benchmark_id = Some run
    /\ br_id run = benchmark_id
    /\ br_prompts run = prompts
    /\ br_model_ids run = model_ids
    /\ br_metrics run = effective_metrics metrics
    /\ od_keys (br_results run) = resolved_ids (model_manager self) model_ids
    /\ (forall m, In m (od_keys (br_results run))
                  <-> In m model_ids
                      /\ exists c, get_model_connector (model_manager self) m = Some c)
    /\ (forall m mr, od_get m (br_results run) = Some mr ->
          exists c,
            get_model_connector (model_manager self) m = Some c
            /\ _run_model_benchmark c prompts (effective_metrics metrics) m = inr mr)
    /\ (forall m, get_model_connector (model_manager self) m = None ->
          od_get m (br_results run) = None
          /\ (forall name R, od_get name (rankings (br_summary run)) = Some R ->
                ~ In m (map re_model_id R))
          /\ (forall name, od_get name (best_performers (br_summary run)) <> Some m))
    /\ (model_ids = [] ->
          br_results run = []
          /\ rankings (br_summary run) = []
          /\ best_performers (br_summary run) = [])
    /\ (prompts = [] ->
          forall m mr, od_get m (br_results run) = Some mr ->
            mr_prompt_results mr = [] /\ mr_aggregated_metrics mr = Some []).
Proof.
  intros Hno.
  destruct (run_benchmark_ok self benchmark_id now prompts model_ids metrics Hno)
    as (results & _ & Hkeys & Hall & Hrun).
  assert (Hmem : forall m, In m (od_keys results)
                           -> In m model_ids
                              /\ exists c, get_model_connector (model_manager self) m = Some c).
  { intros m Hm. rewrite Hkeys in Hm. apply resolved_ids_In in Hm as [Hm Hr].
    split; [exact Hm|]. unfold resolvable in Hr.
    destruct (get_model_connector (model_manager self) m) as [c|];
      [now exists c | discriminate]. }
  assert (Hrank : forall m name R,
             od_get name (rankings (summary_of (model_scores_of results)
                                      (effective_metrics metrics))) = Some R ->
             In m (map re_model_id R) -> In m (od_keys results)).
  { intros m name R HR Hm.
    apply summary_ranking_cases in HR as (_ & f & ->).
    apply list_elem_of_In. rewrite <- (ranking_by_ids f results).
    now apply list_elem_of_In. }
  eexists _, _. split; [exact Hrun|].
  cbn [run_of br_id br_prompts br_model_ids br_metrics br_results br_summary].
  split; [unfold get_results; cbn [results_store]; apply lookup_insert_eq|].
  do 4 (split; [reflexivity|]). split; [exact Hkeys|]. split.
  { intros m. split; [apply Hmem|]. intros [Hm [c Hc]].
    rewrite Hkeys. apply resolved_ids_In. split; [exact Hm|].
    unfold resolvable. now rewrite Hc. }
  split.
  { intros m mr Hm. apply od_get_Some_In in Hm.
    rewrite Forall_forall in Hall. apply list_elem_of_In, Hall in Hm.
    exact Hm. }
  split.
  { intros m Hnone.
    assert (Hout : ~ In m (od_keys results)).
    { intros Hm. apply Hmem in Hm as [_ [c Hc]]. congruence. }
    split; [now apply od_get_None_keys|]. split.
    - intros name R HR Hm. apply Hout. eapply Hrank; eassumption.
    - intros name Hbest.
      destruct results as [|kv results']; [discriminate|].
      rewrite summary_best_performers in Hbest by discriminate.
      destruct (mem name (effective_metrics metrics)) eqn:Em; [|discriminate].
      destruct (head (ranking_by (average_of name) (kv :: results'))) as [e|] eqn:Eh;
        [|discriminate].
      injection Hbest as <-. apply head_In in Eh. apply Hout.
      apply list_elem_of_In. rewrite <- (ranking_by_ids (average_of name)).
      apply list_elem_of_In. now apply in_map. }
  split.
  { intros ->. simpl in Hkeys. destruct results; [|discriminate].
    repeat split. }
  intros -> m mr Hm. apply od_get_Some_In in Hm.
  rewrite Forall_forall in Hall. apply list_elem_of_In, Hall in Hm.
  apply entry_ok_benchmarked in Hm as (c & _ & Hb).
  eapply benchmarked_no_prompts. exact Hb.
Qed.

(** The metric name ['overall_score'] is excluded above: requested next to
    a computed metric, it makes [_calculate_summary] call [get] on the number
    stored under that name. *)
Example overall_score_as_metric_raises :
  run_benchmark Examples.fresh_runner "run-1" 0 ["p0"] ["good"]
    (Some ["latency"; "overall_score"])
  = inl AttributeError.
Proof. vm_compute. reflexivity. Qed.

(** The theorem applies to a run that names a working model, an unknown
    model and a failing model. *)
Lemma run_benchmark_completes_example :
  exists run self',
    run_benchmark Examples.fresh_runner "run-1" 0 ["p0"] ["good"; "nope"; "bad"] None
    = inr (run, self')
    /\ od_keys (br_results run) = ["good"; "bad"]
    /\ od_get "nope" (br_results run) = None.
Proof.
  destruct (run_benchmark_completes
              Examples.fresh_runner "run-1" 0 ["p0"] ["good"; "nope"; "bad"] None)
    as (run & self' & Hrun & _ & _ & _ & _ & _ & Hkeys & _ & _ & Hskip & _).
  - vm_compute. intuition discriminate.
  - exists run, self'. split; [exact Hrun|]. split.
    + rewrite Hkeys. reflexivity.
    + apply Hskip. reflexivity.
Defined.

End Completion.

(** ** Determinism and ties *)

Section Determinism.

Local Open Scope string_scope.

(** C8: two calls of [run_benchmark] with the same prompts, model ids and
    metrics on runners with the same registry, whatever their identifiers,
    clocks and stores, return the same results and the same summary, hence
    the same rankings; every ranking is in decreasing order of score, and of
    two entries with equal scores the first is the model that occurs first
    in [model_ids]. *)
Theorem rankings_deterministic_and_stable
    (self1 self2 : runner) (id1 id2 : string) (now1 now2 : Q)
    (prompts model_ids : list string) (metrics : option (list string)) :
  model_manager self1 = model_manager self2 ->
  ~ In "overall_score" (effective_metrics metrics) ->
  exists run1 run2 self1' self2',
    run_benchmark self1 id1 now1 prompts model_ids metrics = inr (run1, self1')
    /\ run_benchmark self2 id2 now2 prompts model_ids metrics = inr (run2, self2')
    /\ br_results run1 = br_results run2
    /\ br_summary run1 = br_summary run2
    /\ forall name R,
         od_get name (rankings (br_summary run1)) = Some R ->
         descending re_score R
         /\ forall i j e1 e2,
              R !! i = Some e1 -> R !! j = Some e2 -> (i < j)%nat ->
              (re_score e1 == re_score e2)%Q ->
              exists a b,
                index_of (re_model_id e1) model_ids = Some a
                /\ index_of (re_model_id e2) model_ids = Some b
                /\ (a < b)%nat.
Proof.
  intros Hsame Hno.
  destruct (run_benchmark_ok self1 id1 now1 prompts model_ids metrics Hno)
    as (results & Hloop & Hkeys & _ & Hrun1).
  destruct (run_benchmark_ok self2 id2 now2 prompts model_ids metrics Hno)
    as (results' & Hloop' & _ & _ & Hrun2).
  rewrite <- Hsame, Hloop in Hloop'. injection Hloop' as <-.
  eexists _, _, _, _. split; [exact Hrun1|]. split; [exact Hrun2|].
  cbn [run_of br_results br_summary].
  split; [reflexivity|]. split; [reflexivity|].
  intros name R HR. apply summary_ranking_cases in HR as (_ & f & ->).
  split; [apply ranking_by_descending|].
  intros i j e1 e2 H1 H2 Hij Heq.
  pose proof (lookup_before _ _ _ _ _ H1 H2 Hij) as Hb.
  apply ranking_by_stable in Hb; [|exact Heq].
  rewrite Hkeys in Hb. unfold resolved_ids in Hb.
  apply fresh_keys_before in Hb. exact Hb.
Qed.

(** The theorem applies to a fresh runner and a runner that already stores
    a run, with other identifiers and clocks. *)
Lemma rankings_deterministic_and_stable_example :
  exists run1 run2 self1' self2',
    run_benchmark Examples.fresh_runner "run-1" 0 ["p0"] ["bad"; "good"; "bad"] None
    = inr (run1, self1')
    /\ run_benchmark Examples.used_runner "run-2" 5 ["p0"] ["bad"; "good"; "bad"] None
       = inr (run2, self2')
    /\ br_results run1 = br_results run2
    /\ br_summary run1 = br_summary run2
    /\ forall name R,
         od_get name (rankings (br_summary run1)) = Some R ->
         descending re_score R
         /\ forall i j e1 e2,
              R !! i = Some e1 -> R !! j = Some e2 -> (i < j)%nat ->
              (re_score e1 == re_score e2)%Q ->
              exists a b,
                index_of (re_model_id e1) ["bad"; "good"; "bad"] = Some a
                /\ index_of (re_model_id e2) ["bad"; "good"; "bad"] = Some b
                /\ (a < b)%nat.
Proof.
  apply (rankings_deterministic_and_stable
           Examples.fresh_runner Examples.used_runner "run-1" "run-2" 0 5
           ["p0"] ["bad"; "good"; "bad"] None).
  - reflexivity.
  - vm_compute. intuition discriminate.
Defined.

(** Ties in a run without prompts: every model scores 0 and the rankings
    follow the order of the request. *)
Example tie_order :
  exists run self',
    run_benchmark Examples.fresh_runner "run-1" 0 [] ["good"; "bad"; "good"] None
    = inr (run, self')
    /\ od_get "overall" (rankings (br_summary run))
       = Some [ {| re_model_id := "good"; re_score := 0 |};
                {| re_model_id := "bad"; re_score := 0 |} ].
Proof.
  do 2 eexists. split; [vm_compute; reflexivity | reflexivity].
Qed.

End Determinism.

(** ** Leaderboard *)

Section LeaderboardFacts.

Local Open Scope string_scope.

Import Leaderboard.

(** [get_rankings] does not depend on the state of the leaderboard. *)
Lemma get_rankings_constant (lb lb' : leaderboard) (now : Q) (metric : string) :
  get_rankings lb now metric = get_rankings lb' now metric.
Proof. reflexivity. Qed.

Lemma get_rankings_models (lb : leaderboard) (now : Q) (metric : string) :
  Permutation (map lb_model_id (rv_rankings (get_rankings lb now metric)))
              mock_models.
Proof.
  unfold get_rankings. cbn [rv_rankings].
  assert (H : forall l, In l (map snd mock_rankings) ->
                        Permutation (map lb_model_id l) mock_models).
  { intros l Hl. simpl in Hl.
    destruct Hl as [<-|[<-|[<-|[<-|[]]]]]; cbn [map lb_model_id mk_entry];
      unfold mock_models.
    - reflexivity.
    - apply (bool_decide_unpack _). vm_compute. exact I.
    - apply (bool_decide_unpack _). vm_compute. exact I.
    - reflexivity. }
  destruct (od_get metric mock_rankings) as [l|] eqn:E.
  - apply H. apply od_get_Some_In in E. apply (in_map snd) in E. exact E.
  - apply H. simpl. now left.
Qed.

(** C9 fails on the code: [update_rankings] followed by [get_rankings]
    returns the rankings the leaderboard returned before, whatever run was
    ingested; they list the five fixed models, and a model of the run that is
    not one of them is absent. After the run over the model ["good"] is
    ingested, ["good"] is not in the overall ranking. *)
Theorem leaderboard_ignores_update :
  (forall lb now now' run metric,
      rv_rankings (get_rankings (update_rankings lb now run) now' metric)
      = rv_rankings (get_rankings lb now' metric)
      /\ forall m, In m (od_keys (br_results run)) -> ~ In m mock_models ->
           ~ In m (map lb_model_id
                      (rv_rankings
                         (get_rankings (update_rankings lb now run) now' metric))))
  /\ exists run self',
      run_benchmark Examples.fresh_runner "run-1" 0 ["p0"] ["good"] None
      = inr (run, self')
      /\ od_keys (br_results run) = ["good"]
      /\ map lb_model_id
           (rv_rankings (get_rankings (update_rankings init 10 run) 10 "overall"))
         = mock_models
      /\ ~ In "good"
             (map lb_model_id
                (rv_rankings (get_rankings (update_rankings init 10 run) 10 "overall"))).
Proof.
  split.
  - intros lb now now' run metric. split; [reflexivity|].
    intros m _ Hm Hin. apply Hm.
    apply list_elem_of_In.
    rewrite <- (get_rankings_models (update_rankings lb now run) now' metric).
    now apply list_elem_of_In.
  - do 2 eexists. split; [vm_compute; reflexivity|].
    split; [reflexivity|]. split; [reflexivity|].
    vm_compute. intuition discriminate.
Qed.

End LeaderboardFacts.

(** * Further properties *)

(** ** Cost score *)

Section CostScore.

Local Open Scope Q_scope.

Lemma cost_free (cost max_cost : Q) :
  cost <= 0 -> calculate_cost_score cost max_cost = inr 100.
Proof.
  intros H. unfold calculate_cost_score.
  apply Qle_bool_iff in H. now rewrite H.
Qed.

(** The score of a positive cost for a divisor that is not zero. *)
Lemma cost_positive (cost max_cost : Q) :
  0 < cost -> ~ max_cost == 0 ->
  calculate_cost_score cost max_cost
  = inr ((1 - min2 (cost / max_cost) 1) * 100).
Proof.
  intros Hc Hm. unfold calculate_cost_score.
  rewrite (proj2 (Qle_bool_false _ _) Hc), truediv_ok by exact Hm.
  reflexivity.
Qed.

Lemma div_tenth (x : Q) : x / 0.1 == 10 * x.
Proof. unfold Qdiv. change (/ 0.1) with 10. ring. Qed.

Lemma cost_cases (cost : Q) :
  (cost <= 0 /\ returns (calculate_cost_score cost default_max_cost) 100)
  \/ (0 < cost /\ cost < 0.1
      /\ returns (calculate_cost_score cost default_max_cost) (100 - 1000 * cost))
  \/ (0.1 <= cost /\ returns (calculate_cost_score cost default_max_cost) 0).
Proof.
  destruct (Qlt_le_dec 0 cost) as [Hpos|Hneg].
  - rewrite cost_positive by (try assumption; unfold default_max_cost; lra).
    unfold returns, default_max_cost.
    destruct (min2_spec (cost / 0.1) 1) as [[H ->] | [H ->]];
      rewrite div_tenth in H.
    + right; right. split; [lra | ring].
    + destruct (Qlt_le_dec cost 0.1) as [Hlt|Hge].
      * right; left. repeat split; try assumption. rewrite div_tenth. ring.
      * right; right. split; [assumption|]. rewrite div_tenth.
        assert (E : cost == 0.1) by lra. rewrite E. reflexivity.
  - left. split; [assumption|]. rewrite cost_free by assumption. reflexivity.
Qed.



End CostScore.

(** ** Context-utilization score *)

Section ContextScore.

Local Open Scope Q_scope.

Lemma of_nat_nonneg (n : nat) : 0 <= of_nat n.
Proof. unfold of_nat, Qle. simpl. lia. Qed.

Lemma inject_Z_pos (z : Z) : (0 < z)%Z -> 0 < inject_Z z.
Proof. intros H. unfold Qlt. simpl. lia. Qed.

(** The score as a function of the ratio, once the division is done. *)
Lemma context_of_ratio (prompt_length : nat) (max_context : Z) :
  (0 < max_context)%Z ->
  let r := of_nat prompt_length / inject_Z max_context in
  0 <= r
  /\ exists q,
      calculate_context_utilization_score prompt_length max_context = inr q
      /\ 0 <= q <= 100
      /\ (r < 0.2 -> q == r * 500)
      /\ (0.2 <= r -> r <= 0.8 -> q == 100)
      /\ (0.8 < r -> r < 1 -> q == 100 - (r - 0.8) * 500)
      /\ (1 <= r -> q == 0).
Proof.
  intros Hm r.
  assert (Hr : 0 <= r).
  { apply Qle_shift_div_l; [now apply inject_Z_pos|].
    rewrite Qmult_0_l. apply of_nat_nonneg. }
  split; [exact Hr|].
  unfold calculate_context_utilization_score.
  destruct (Z.leb_spec max_context 0) as [H|_]; [lia|].
  rewrite truediv_ok by (pose proof (inject_Z_pos _ Hm); lra).
  cbn [bind]. fold r.
  destruct (min2_spec r 1) as [[Hu ->] | [Hu ->]].
  - replace (Qle_bool 0.2 1 && Qle_bool 1 0.8) with false by reflexivity.
    replace (Qlt_bool 1 0.2) with false by reflexivity.
    eexists. split; [reflexivity|].
    replace (max2 0 (100 - (1 - 0.8) * 500)) with 0 by reflexivity.
    repeat split; intros; lra.
  - destruct (Qle_bool 0.2 r) eqn:E1.
    + apply Qle_bool_iff in E1. destruct (Qle_bool r 0.8) eqn:E2.
      * apply Qle_bool_iff in E2. eexists. split; [reflexivity|].
        repeat split; intros; lra.
      * apply Qle_bool_false in E2. cbn [andb].
        rewrite (proj2 (Qlt_bool_false _ _) E1).
        eexists. split; [reflexivity|].
        destruct (max2_spec 0 (100 - (r - 0.8) * 500)) as [[H ->] | [H ->]];
          repeat split; intros; lra.
    + apply Qle_bool_false in E1. cbn [andb].
      rewrite (proj2 (Qlt_bool_iff _ _) E1).
      eexists. split; [reflexivity|]. repeat split; intros; lra.
Qed.


(** The default context of 4096 tokens: a prompt of 100 words uses less than
    a fifth of it, one of 1000 words is in the plateau, one of 5000 words
    overflows it. *)
Example context_utilization_values :
  returns (calculate_context_utilization_score 0 4096) 0
  /\ returns (calculate_context_utilization_score 1000 4096) 100
  /\ returns (calculate_context_utilization_score 5000 4096) 0
  /\ calculate_context_utilization_score 10 0 = inr 50.
Proof. repeat apply conj; now vm_compute. Qed.

End ContextScore.

(** ** Text similarity *)

Section WordSets.

Implicit Types A B : gset string.

Lemma inter_subseteq_union A B : A ∩ B ⊆ A ∪ B.
Proof.
  transitivity A; [apply intersection_subseteq_l | apply union_subseteq_l].
Qed.

Lemma union_empty_both A B : A ∪ B = ∅ -> A = B.
Proof.
  intros H. apply empty_union_L in H as [-> ->]. reflexivity.
Qed.

Lemma inter_eq_union A B : A ∩ B = A ∪ B -> A = B.
Proof.
  intros H. apply (anti_symm (⊆)).
  - transitivity (A ∪ B); [apply union_subseteq_l|].
    rewrite <- H. apply intersection_subseteq_r.
  - transitivity (A ∪ B); [apply union_subseteq_r|].
    rewrite <- H. apply intersection_subseteq_l.
Qed.

End WordSets.

Section TextSimilarity.

Local Open Scope Q_scope.

Lemma of_nat_pos (n : nat) : (0 < n)%nat -> 0 < of_nat n.
Proof. intros H. unfold of_nat, Qlt. simpl. lia. Qed.

Lemma of_nat_le (a b : nat) : of_nat a <= of_nat b <-> (a <= b)%nat.
Proof. unfold of_nat. rewrite <- Zle_Qle. lia. Qed.

Lemma of_nat_eq (a b : nat) : of_nat a == of_nat b <-> a = b.
Proof. unfold of_nat. rewrite inject_Z_injective. lia. Qed.

Lemma ratio_le_one (a b : nat) :
  (0 < b)%nat -> (a <= b)%nat -> 0 <= of_nat a / of_nat b <= 1.
Proof.
  intros Hb Hab. apply of_nat_pos in Hb. split.
  - apply Qle_shift_div_l; [assumption|]. rewrite Qmult_0_l. apply of_nat_nonneg.
  - apply Qle_shift_div_r; [assumption|]. rewrite Qmult_1_l. now apply of_nat_le.
Qed.

Lemma ratio_eq_one (a b : nat) :
  (0 < b)%nat -> (of_nat a / of_nat b == 1 <-> a = b).
Proof.
  intros Hb. apply of_nat_pos in Hb. rewrite <- of_nat_eq. split.
  - intros H. rewrite <- (Qmult_1_l (of_nat b)), <- H. field. lra.
  - intros ->. field. lra.
Qed.

Lemma ratio_eq_zero (a b : nat) :
  (0 < b)%nat -> (of_nat a / of_nat b == 0 <-> a = 0%nat).
Proof.
  intros Hb. apply of_nat_pos in Hb. rewrite <- of_nat_zero. split.
  - intros H. rewrite <- (Qmult_0_l (of_nat b)), <- H. field. lra.
  - intros ->. field. lra.
Qed.

Lemma union_size_pos (A B : gset string) : A ∪ B <> ∅ -> (0 < size (A ∪ B))%nat.
Proof.
  intros H. destruct (size (A ∪ B)) eqn:E; [|lia].
  apply size_empty_inv in E. exfalso. apply H. now apply leibniz_equiv.
Qed.

Lemma jaccard_range (A B : gset string) : 0 <= jaccard A B <= 1.
Proof.
  unfold jaccard. case_bool_decide as H; [lra|].
  apply ratio_le_one; [now apply union_size_pos|].
  apply subseteq_size, inter_subseteq_union.
Qed.

Lemma jaccard_comm (A B : gset string) : jaccard A B = jaccard B A.
Proof.
  unfold jaccard. now rewrite (comm_L (∪) A B), (comm_L (∩) A B).
Qed.

Lemma jaccard_one (A B : gset string) : jaccard A B == 1 <-> A = B.
Proof.
  unfold jaccard. case_bool_decide as H.
  - split; [|reflexivity]. intros _. now apply union_empty_both.
  - rewrite ratio_eq_one by now apply union_size_pos. split.
    + intros E. apply inter_eq_union.
      apply set_subseteq_size_eq; [apply inter_subseteq_union | lia].
    + intros ->. now rewrite (idemp_L (∩)), (idemp_L (∪)).
Qed.

Lemma jaccard_zero (A B : gset string) :
  jaccard A B == 0 <-> A ∩ B = ∅ /\ A ∪ B <> ∅.
Proof.
  unfold jaccard. case_bool_decide as H.
  - split; [intros E; lra | intros [_ H']; contradiction].
  - rewrite ratio_eq_zero by now apply union_size_pos.
    rewrite size_empty_iff. split.
    + intros E. split; [now apply leibniz_equiv | assumption].
    + intros [-> _]. reflexivity.
Qed.

Lemma lower_ascii_idempotent (c : ascii) :
  lower_ascii (lower_ascii c) = lower_ascii c.
Proof.
  destruct c as [[] [] [] [] [] [] [] []]; reflexivity.
Qed.

Lemma lower_idempotent (s : string) : lower (lower s) = lower s.
Proof.
  induction s as [|c s IH]; simpl; [reflexivity|].
  now rewrite lower_ascii_idempotent, IH.
Qed.

(** X4: [_calculate_text_similarity] never raises; its value lies in
    [0,1], does not depend on the order of the two texts nor on the case of
    their letters, is 1 exactly when the two texts have the same set of
    lower-cased words, and is 0 exactly when they share no word and are not
    both without words. *)
Theorem text_similarity_properties (text1 text2 : string) :
  exists q,
    _calculate_text_similarity text1 text2 = inr q
    /\ 0 <= q <= 1
    /\ returns (_calculate_text_similarity text2 text1) q
    /\ _calculate_text_similarity (lower text1) text2
       = _calculate_text_similarity text1 text2
    /\ (q == 1 <-> word_set text1 = word_set text2)
    /\ (q == 0 <-> word_set text1 ∩ word_set text2 = ∅
                   /\ word_set text1 ∪ word_set text2 <> ∅).
Proof.
  pose proof (similarity_jaccard text1 text2) as H12.
  pose proof (similarity_jaccard text2 text1) as H21.
  assert (Hlow : _calculate_text_similarity (lower text1) text2
                 = _calculate_text_similarity text1 text2).
  { unfold _calculate_text_similarity. rewrite lower_idempotent. reflexivity. }
  rewrite Hlow. clear Hlow.
  unfold returns in H12.
  destruct (_calculate_text_similarity text1 text2) as [e|q]; [contradiction|].
  exists q. split; [reflexivity|].
  split; [rewrite H12; apply jaccard_range|].
  split.
  { unfold returns in *.
    destruct (_calculate_text_similarity text2 text1) as [e|q'];
      [contradiction|].
    rewrite H21, H12, (jaccard_comm (word_set text2)). reflexivity. }
  split; [reflexivity|].
  split.
  - rewrite H12. apply jaccard_one.
  - rewrite H12. apply jaccard_zero.
Qed.

End TextSimilarity.

(** ** Range of the quality score *)

Section QualityRange.

Local Open Scope Q_scope.

Lemma clamp_inside (x : Q) : 0 <= x <= 100 -> clamp x == x.
Proof.
  intros [H0 H100]. unfold clamp.
  destruct (Q.max_spec 0 x) as [[H2 E2] | [H2 E2]];
  destruct (Q.min_spec 100 (Qmax 0 x)) as [[H4 E4] | [H4 E4]];
    rewrite E4; lra.
Qed.

Lemma half (x : Q) : x / 2 == x * (1 # 2).
Proof. reflexivity. Qed.

Lemma truthy_Some (o : option string) :
  truthy o = true -> exists s, o = Some s /\ s <> EmptyString.
Proof.
  destruct o as [[|c s]|]; try discriminate.
  intros _. eexists. split; [reflexivity | discriminate].
Qed.

(** X5: [calculate_quality_score] never raises and its score lies in
    [0,100]. It is 0 for an absent or empty response; for a non-empty
    response it lies between 40 and 90 without a reference (or with an empty
    one) and between 20 and 95 with a non-empty reference, so that the final
    clamping to [0,100] never changes the score. *)
Theorem quality_score_range (response reference : option string) :
  exists q,
    calculate_quality_score response reference = inr q
    /\ 0 <= q <= 100
    /\ (truthy response = false -> q = 0)
    /\ (truthy response = true -> truthy reference = false -> 40 <= q <= 90)
    /\ (truthy response = true -> truthy reference = true -> 20 <= q <= 95).
Proof.
  destruct (truthy response) eqn:Er.
  - apply truthy_Some in Er as (r & -> & Hr).
    pose proof (heuristic_bounds r) as Hh.
    destruct (truthy reference) eqn:Ef.
    + apply truthy_Some in Ef as (f & -> & Hf).
      pose proof (quality_with_reference r f Hr Hf) as H.
      pose proof (jaccard_range (word_set r) (word_set f)) as Hj.
      unfold returns in H.
      destruct (calculate_quality_score (Some r) (Some f)) as [e|q];
        [contradiction|].
      assert (Hm : 20 <= (heuristic_score r
                          + 100 * jaccard (word_set r) (word_set f)) / 2 <= 95).
      { rewrite half. lra. }
      rewrite clamp_inside in H by lra.
      exists q. split; [reflexivity|].
      repeat split; intros; try discriminate; lra.
    + pose proof (quality_without_reference r reference Hr Ef) as H.
      unfold returns in H.
      destruct (calculate_quality_score (Some r) reference) as [e|q];
        [contradiction|].
      rewrite clamp_inside in H by lra.
      exists q. split; [reflexivity|].
      repeat split; intros; try discriminate; lra.
  - exists 0. split.
    + destruct response as [[|c s]|]; [reflexivity | discriminate | reflexivity].
    + repeat split; intros; try discriminate; lra.
Qed.

End QualityRange.

(** ** Range of the aggregated score *)

Section AggregateRange.

Local Open Scope Q_scope.

Lemma default_weight_pos (metric : string) : 0 < weight_of default_weights metric.
Proof.
  unfold weight_of, default_weights.
  repeat (rewrite lookup_insert; case_decide; [simpl; lra|]).
  rewrite lookup_empty. simpl. lra.
Qed.

Lemma total_weight_pos (w : gmap string Q) (scores : odict Q) :
  scores <> [] ->
  (forall m s, In (m, s) scores -> 0 < weight_of w m) ->
  0 < total_weight w scores.
Proof.
  induction scores as [|[m s] scores IH]; intros Hne Hw; [congruence|].
  simpl. assert (0 < weight_of w m) by (apply (Hw m s); now left).
  destruct scores as [|item scores]; [simpl; lra|].
  assert (0 < total_weight w (item :: scores)); [|lra].
  apply IH; [discriminate|]. intros m' s' Hin. apply (Hw m' s'). now right.
Qed.

Lemma weighted_sum_bounds (w : gmap string Q) (scores : odict Q) (lo hi : Q) :
  (forall m s, In (m, s) scores -> lo <= s <= hi) ->
  (forall m s, In (m, s) scores -> 0 < weight_of w m) ->
  lo * total_weight w scores <= weighted_sum w scores
  /\ weighted_sum w scores <= hi * total_weight w scores.
Proof.
  induction scores as [|[m s] scores IH]; intros Hs Hw; simpl; [lra|].
  assert (Hm : 0 < weight_of w m) by (apply (Hw m s); now left).
  assert (Hr : lo <= s <= hi) by (apply (Hs m s); now left).
  destruct IH as [IH1 IH2].
  { intros m' s' Hin. apply (Hs m' s'). now right. }
  { intros m' s' Hin. apply (Hw m' s'). now right. }
  split; nra.
Qed.

Lemma aggregate_scores_between (scores : odict Q)
    (weights : option (gmap string Q)) (lo hi : Q) :
  scores <> [] ->
  (forall m s, In (m, s) scores -> lo <= s <= hi) ->
  (forall m s, In (m, s) scores -> 0 < weight_of (effective_weights weights) m) ->
  exists q, aggregate_scores scores weights = inr q /\ lo <= q <= hi.
Proof.
  intros Hne Hs Hw.
  pose proof (total_weight_pos _ _ Hne Hw) as Hpos.
  destruct (weighted_sum_bounds _ _ lo hi Hs Hw) as [H1 H2].
  destruct (aggregate_scores_cases scores weights Hne) as [[_ H] | [H _]];
    [|lra].
  unfold returns in H.
  destruct (aggregate_scores scores weights) as [e|q]; [contradiction|].
  exists q. split; [reflexivity|]. rewrite H. split.
  - apply Qle_shift_div_l; assumption.
  - apply Qle_shift_div_r; assumption.
Qed.



End AggregateRange.

(** ** Range of the scores of a prompt *)

Section PromptScores.

Local Open Scope Q_scope.

Lemma latency_bounds (latency : Q) : 0 <= calculate_latency_score latency <= 100.
Proof.
  destruct (latency_cases latency) as [[H ->] | [[H ->] | (H1 & H2 & ->)]];
    rewrite ?div_nine; lra.
Qed.

Lemma cost_bounds (cost : Q) :
  exists q, calculate_cost_score cost default_max_cost = inr q /\ 0 <= q <= 100.
Proof.
  destruct (cost_cases cost) as [[H R] | [(H0 & H1 & R) | [H R]]];
    unfold returns in R;
    destruct (calculate_cost_score cost default_max_cost) as [e|q];
    try contradiction; exists q; (split; [reflexivity|]); lra.
Qed.

Lemma quality_bounds (response : option string) :
  exists q, calculate_quality_score response None = inr q /\ 0 <= q <= 100.
Proof.
  destruct response as [[|c s]|]; try (exists 0; split; [reflexivity | lra]).
  pose proof (quality_without_reference (String c s) None) as H.
  unfold returns in H.
  destruct (calculate_quality_score (Some (String c s)) None) as [e|q].
  - exfalso. apply H; [discriminate | reflexivity].
  - exists q. split; [reflexivity|].
    rewrite H by (discriminate || reflexivity). apply clamp_bounds.
Qed.

Lemma context_bounds (prompt_length : nat) (max_context : Z) :
  exists q,
    calculate_context_utilization_score prompt_length max_context = inr q
    /\ 0 <= q <= 100.
Proof.
  destruct (Z.leb_spec max_context 0) as [H|H].
  - exists 50. split; [|lra]. unfold calculate_context_utilization_score.
    destruct (Z.leb_spec max_context 0); [reflexivity | lia].
  - destruct (context_of_ratio prompt_length max_context H) as (_ & q & Hq & Hb & _).
    now exists q.
Qed.


End PromptScores.

(** ** Statistics of a metric *)

Section ListStatistics.

Local Open Scope Q_scope.

Lemma of_nat_S (n : nat) : of_nat (Datatypes.S n) == of_nat n + 1.
Proof.
  unfold of_nat. rewrite Nat2Z.inj_succ, <- Z.add_1_r, inject_Z_plus.
  reflexivity.
Qed.

Lemma fold_sum_bounds (l : list Q) (acc lo hi : Q) :
  (forall x, In x l -> lo <= x <= hi) ->
  acc + of_nat (length l) * lo <= fold_left Qplus l acc
  /\ fold_left Qplus l acc <= acc + of_nat (length l) * hi.
Proof.
  revert acc. induction l as [|x l IH]; intros acc H.
  - simpl. change (of_nat 0) with 0. lra.
  - cbn [fold_left length]. rewrite of_nat_S.
    assert (Hx : lo <= x <= hi) by (apply H; now left).
    destruct (IH (acc + x)) as [IH1 IH2]; [intros y Hy; apply H; now right|].
    split; nra.
Qed.

(** A mean lies between any bounds of its terms. *)
Lemma mean_bounds (l : list Q) (lo hi : Q) :
  l <> [] ->
  (forall x, In x l -> lo <= x <= hi) ->
  lo <= sum l / of_nat (length l) <= hi.
Proof.
  intros Hne H. destruct (fold_sum_bounds l 0 lo hi H) as [H1 H2].
  fold (sum l) in H1, H2.
  assert (Hn : 0 < of_nat (length l)).
  { apply of_nat_pos. destruct l; [congruence | simpl; lia]. }
  split.
  - apply Qle_shift_div_l; [assumption | lra].
  - apply Qle_shift_div_r; [assumption | lra].
Qed.

Lemma min_list_spec (x : Q) (l : list Q) :
  In (min_list x l) (x :: l) /\ forall y, In y (x :: l) -> min_list x l <= y.
Proof.
  unfold min_list. revert x. induction l as [|z l IH]; intros x.
  - simpl. split; [now left|]. intros y [<-|[]]. lra.
  - cbn [fold_left]. destruct (IH (min2 x z)) as [Hin Hle]. split.
    + destruct Hin as [E|Hin]; [|now right; right].
      rewrite <- E. destruct (min2_spec x z) as [[_ ->] | [_ ->]];
        [right; now left | now left].
    + intros y Hy.
      assert (Hm : fold_left min2 l (min2 x z) <= min2 x z)
        by (apply Hle; now left).
      destruct (min2_spec x z) as [[H E] | [H E]]; rewrite E in *;
        destruct Hy as [<-|[<-|Hy]];
        try lra; (apply Hle; now right).
Qed.

Lemma max_list_spec (x : Q) (l : list Q) :
  In (max_list x l) (x :: l) /\ forall y, In y (x :: l) -> y <= max_list x l.
Proof.
  unfold max_list. revert x. induction l as [|z l IH]; intros x.
  - simpl. split; [now left|]. intros y [<-|[]]. lra.
  - cbn [fold_left]. destruct (IH (max2 x z)) as [Hin Hle]. split.
    + destruct Hin as [E|Hin]; [|now right; right].
      rewrite <- E. destruct (max2_spec x z) as [[_ ->] | [_ ->]];
        [right; now left | now left].
    + intros y Hy.
      assert (Hm : max2 x z <= fold_left max2 l (max2 x z))
        by (apply Hle; now left).
      destruct (max2_spec x z) as [[H E] | [H E]]; rewrite E in *;
        destruct Hy as [<-|[<-|Hy]];
        try lra; (apply Hle; now right).
Qed.

(** Least, mean and greatest of a non-empty list, as the code computes
    them. *)
Lemma list_statistics (x : Q) (l : list Q) :
  min_list x l <= sum (x :: l) / of_nat (length (x :: l))
  /\ sum (x :: l) / of_nat (length (x :: l)) <= max_list x l.
Proof.
  destruct (min_list_spec x l) as [_ Hmin].
  destruct (max_list_spec x l) as [_ Hmax].
  apply (mean_bounds (x :: l)); [discriminate|].
  intros y Hy. split; [now apply Hmin | now apply Hmax].
Qed.

End ListStatistics.

(** ** Statistics in the aggregated metrics *)

Section AggregateStatistics.

Local Open Scope Q_scope.

Lemma aggregate_metric_stats (prs : list prompt_result) (d d' : odict agg_value)
    (m : string) :
  aggregate_metric prs d m = inr d' ->
  (selected m prs = [] /\ d' = d)
  \/ exists a, d' = od_set m (AggMetric a) d /\ metric_stats (selected m prs) a.
Proof.
  unfold aggregate_metric, metric_stats.
  destruct (selected m prs) as [|x sel].
  - intros [= <-]. now left.
  - cbn [map]. rewrite truediv_ok by apply of_nat_succ_nonzero. cbn [bind].
    destruct (omap md_raw_value (x :: sel)) as [|r raws].
    + cbn [bind ret]. intros [= <-]. right. eexists. split; [reflexivity|].
      cbn [count average_score min_score max_score average_raw min_raw max_raw
           fst snd].
      cbn [length]. rewrite ?length_map. repeat split.
    + cbn [length]. rewrite truediv_ok by apply of_nat_succ_nonzero.
      cbn [bind ret]. intros [= <-]. right. eexists. split; [reflexivity|].
      cbn [count average_score min_score max_score average_raw min_raw max_raw
           fst snd].
      cbn [length]. rewrite ?length_map. repeat split.
Qed.

Lemma stats_loop (prs : list prompt_result) (ms : list string)
    (d d' : odict agg_value) :
  stats_entries prs d ->
  for_each ms (aggregate_metric prs) d = inr d' ->
  stats_entries prs d'.
Proof.
  revert d. induction ms as [|m ms IH]; intros d Hd; simpl.
  - now intros [= <-].
  - destruct (aggregate_metric prs d m) as [e|d1] eqn:E; [discriminate|].
    simpl. apply IH.
    apply aggregate_metric_stats in E as [[_ ->] | (a & -> & Ha)]; [exact Hd|].
    apply Forall_od_set; [exact Hd|]. now exists a.
Qed.

Lemma metric_scores_entries (P : Q -> Prop) (d : odict agg_value) (acc ms : odict Q) :
  Forall (fun kv => exists a, kv.2 = AggMetric a /\ P (average_score a)) d ->
  Forall (fun kv => P kv.2) acc ->
  for_each d
    (fun (s : odict Q) '(metric, data) =>
       let* avg := subscript_average_score data in ret (od_set metric avg s))
    acc = inr ms ->
  Forall (fun kv => P kv.2) ms /\ (d <> [] -> ms <> []).
Proof.
  revert acc. induction d as [|[k v] d IH]; intros acc Hd Hacc; simpl.
  - intros [= <-]. split; [exact Hacc | congruence].
  - apply Forall_cons in Hd as [(a & Ha & HP) Hd]. simpl in Ha. subst v. simpl.
    intros H. split; [|intros _].
    + eapply IH; [exact Hd | | exact H]. now apply Forall_od_set.
    + destruct d as [|kv d].
      * simpl in H. injection H as <-. apply od_set_not_nil.
      * eapply IH; [exact Hd | | exact H | discriminate].
        now apply Forall_od_set.
Qed.

Lemma selected_stats_range (sel : list metric_data) (a : metric_agg) (lo hi : Q) :
  metric_stats sel a ->
  (forall d, In d sel -> lo <= md_score d <= hi) ->
  lo <= min_score a /\ min_score a <= average_score a
  /\ average_score a <= max_score a /\ max_score a <= hi.
Proof.
  intros (_ & Hs & _) Hr.
  destruct (map md_score sel) as [|s scores] eqn:E; [contradiction|].
  destruct Hs as (-> & -> & ->).
  destruct (list_statistics s scores) as [H1 H2].
  destruct (min_list_spec s scores) as [Hmin _].
  destruct (max_list_spec s scores) as [Hmax _].
  assert (Hin : forall y, In y (s :: scores) -> lo <= y <= hi).
  { intros y Hy. rewrite <- E in Hy. apply in_map_iff in Hy as (d & <- & Hd).
    now apply Hr. }
  apply Hin in Hmin, Hmax. repeat split; lra.
Qed.

(** The dict [_aggregate_prompt_results] returns, with the statistics of
    its metric entries and a range for its overall score. *)
Lemma aggregate_prompt_results_stats (prs : list prompt_result)
    (metrics : list string) (agg : odict agg_value) (lo hi : Q) :
  _aggregate_prompt_results prs metrics = inr agg ->
  (forall m a, od_get m agg = Some (AggMetric a) ->
     metric_stats (selected m prs) a)
  /\ ((forall m d, In d (selected m prs) -> lo <= md_score d <= hi) ->
      forall o, od_get "overall_score"%string agg = Some (AggFloat o) ->
        lo <= o <= hi).
Proof.
  unfold _aggregate_prompt_results.
  destruct (for_each metrics (aggregate_metric prs) []) as [e|d] eqn:E;
    [discriminate|].
  cbn [bind].
  assert (Hd : stats_entries prs d).
  { eapply stats_loop; [|exact E]. constructor. }
  assert (Hnd : forall m a, In (m, AggMetric a) d ->
                  metric_stats (selected m prs) a).
  { intros m a Hin. unfold stats_entries in Hd. rewrite Forall_forall in Hd.
    apply list_elem_of_In, Hd in Hin as (a' & [= <-] & Ha). exact Ha. }
  destruct d as [|kv d].
  - intros [= <-]. split; intros; discriminate.
  - match goal with
    | |- context [bind ?x _] => destruct x as [e|ms] eqn:Ems
    end; [discriminate|].
    cbn [bind].
    destruct (aggregate_scores ms None) as [e|o] eqn:Eo; [discriminate|].
    cbn [bind]. unfold ret. intros Hagg.
    assert (Eagg : agg = od_set "overall_score" (AggFloat o) (kv :: d))
      by congruence.
    clear Hagg. subst agg. split.
    + intros m a Hget.
      destruct (String.eqb_spec "overall_score" m) as [<-|Hne].
      * rewrite od_get_set_eq in Hget. discriminate.
      * rewrite od_get_set_ne in Hget by exact Hne.
        apply Hnd. now apply od_get_Some_In.
    + intros Hrange o' Hget. rewrite od_get_set_eq in Hget.
      injection Hget as <-.
      destruct (metric_scores_entries (fun q => lo <= q <= hi) (kv :: d) [] ms)
        as [Hms Hne]; [| constructor | exact Ems |].
      * unfold stats_entries in Hd. rewrite Forall_forall in Hd |- *.
        intros [k v] Hin. destruct (Hd _ Hin) as (a & Ha & Hst).
        simpl in Ha, Hst. subst v. exists a. split; [reflexivity|].
        destruct (selected_stats_range _ a lo hi Hst (Hrange k))
          as (? & ? & ? & ?). lra.
      * destruct (aggregate_scores_between ms None lo hi) as (q & Hq & Hb).
        -- apply Hne. discriminate.
        -- intros m s Hin. rewrite Forall_forall in Hms.
           apply (Hms (m, s)). now apply list_elem_of_In.
        -- intros m s _. apply default_weight_pos.
        -- rewrite Hq in Eo. injection Eo as <-. exact Hb.
Qed.

End AggregateStatistics.

Section AggregateOrdering.

Local Open Scope Q_scope.

Lemma selected_In (m : string) (prs : list prompt_result) (d : metric_data) :
  In d (selected m prs)
  <-> exists r, In r prs /\ pr_success r = true
                /\ od_get m (pr_metrics r) = Some d.
Proof.
  unfold selected. rewrite <- list_elem_of_In, list_elem_of_omap. split.
  - intros (r & Hr & H). exists r. apply list_elem_of_In in Hr.
    destruct (pr_success r); [tauto | discriminate].
  - intros (r & Hr & Hs & H). exists r. apply list_elem_of_In in Hr.
    rewrite Hs. tauto.
Qed.



End AggregateOrdering.

(** ** Range of the scores of a model *)

Section ModelScores.

Local Open Scope Q_scope.

Lemma evaluate_single_prompt_in_range (c : connector) (prompt : string)
    (metrics : list string) (info : model_info) :
  exists r,
    _evaluate_single_prompt c prompt metrics info = inr r /\ scores_in_range r.
Proof.
  unfold _evaluate_single_prompt, scores_in_range.
  pose proof (latency_bounds
                (default 0 (rd_latency (generate_response c prompt)))) as Hl.
  destruct (cost_bounds
              (inject_Z (default 0%Z (rd_tokens_used (generate_response c prompt)))
               / 1000 * default 0 (mi_cost_per_1k_tokens info)))
    as (qc & -> & Hc).
  destruct (quality_bounds (get_response (generate_response c prompt)))
    as (qq & -> & Hq).
  destruct (context_bounds (length (split prompt))
              (default 4096%Z (mi_max_context_length info)))
    as (qu & -> & Hu).
  destruct (mem "latency" metrics), (mem "cost" metrics),
    (mem "quality" metrics), (mem "context_utilization" metrics);
    eexists; (split; [reflexivity|]); intros m d Hget;
    cbn [pr_metrics bind ret od_set String.eqb Ascii.eqb Bool.eqb] in Hget;
    cbn [od_get] in Hget;
    repeat match type of Hget with
           | (if String.eqb m ?k then _ else _) = _ =>
               destruct (String.eqb_spec m k) as [->|?]
           end;
    try discriminate; injection Hget as <-; assumption.
Qed.

Lemma Forall2_right {A B : Type} (P : B -> Prop) (l : list A) (k : list B) :
  Forall2 (fun _ y => P y) l k -> Forall P k.
Proof.
  induction 1; constructor; assumption.
Qed.

(** The ranges of what [_run_model_benchmark] returns. *)
Lemma run_model_benchmark_range (c : connector) (prompts metrics : list string)
    (model_id : string) (mr : model_result) (agg : odict agg_value) :
  _run_model_benchmark c prompts metrics model_id = inr mr ->
  mr_aggregated_metrics mr = Some agg ->
  Forall scores_in_range (mr_prompt_results mr)
  /\ (forall m a, od_get m agg = Some (AggMetric a) ->
        0 <= min_score a /\ min_score a <= average_score a
        /\ average_score a <= max_score a /\ max_score a <= 100)
  /\ (forall o, od_get "overall_score"%string agg = Some (AggFloat o) ->
        0 <= o <= 100).
Proof.
  unfold _run_model_benchmark.
  edestruct (comprehension_Forall2
               (fun '(i, prompt) =>
                  let* prompt_result :=
                    _evaluate_single_prompt c prompt metrics (get_model_info c) in
                  ret (set_prompt_index i prompt_result))
               (fun _ r => scores_in_range r) (enumerate prompts))
    as (prs & Hprs & Hall).
  { intros [i p] _.
    destruct (evaluate_single_prompt_in_range c p metrics (get_model_info c))
      as (r & -> & Hr).
    simpl. eexists. split; [reflexivity | exact Hr]. }
  rewrite Hprs. cbn [bind]. apply Forall2_right in Hall.
  destruct (_aggregate_prompt_results prs metrics) as [e|agg'] eqn:Eagg;
    [discriminate|].
  cbn [bind]. unfold ret. intros Hmr Hagg.
  assert (Emr : mr = {| mr_model_id := model_id;
                        mr_model_info := get_model_info c;
                        mr_prompt_results := prs;
                        mr_aggregated_metrics := Some agg' |}) by congruence.
  subst mr. cbn [mr_prompt_results mr_aggregated_metrics] in *.
  injection Hagg as ->.
  assert (Hsel : forall m d, In d (selected m prs) -> 0 <= md_score d <= 100).
  { intros m d Hd. apply selected_In in Hd as (r & Hr & _ & Hg).
    rewrite Forall_forall in Hall. apply list_elem_of_In in Hr.
    exact (Hall r Hr m d Hg). }
  destruct (aggregate_prompt_results_stats prs metrics agg 0 100 Eagg)
    as [Hst Hov].
  split; [exact Hall|]. split.
  - intros m a Ha.
    exact (selected_stats_range (selected m prs) a 0 100 (Hst m a Ha) (Hsel m)).
  - intros o Ho. now apply Hov.
Qed.


End ModelScores.

(** ** Scores and best performers of a run *)

Section RunScores.

Local Open Scope Q_scope.
Local Open Scope string_scope.

Lemma entry_scores_range (models : gmap string model_config)
    (prompts metrics : list string) (kv : string * model_result)
    (agg : odict agg_value) :
  entry_ok models prompts metrics kv ->
  mr_aggregated_metrics kv.2 = Some agg ->
  (forall m, 0 <= average_of m agg <= 100) /\ 0 <= overall_of agg <= 100.
Proof.
  intros (c & _ & Hrun) Hagg.
  destruct (run_model_benchmark_range c prompts metrics kv.1 kv.2 agg Hrun Hagg)
    as (_ & Hstats & Hoverall).
  split.
  - intros m. unfold average_of.
    destruct (od_get m agg) as [[a|q]|] eqn:E; try lra.
    destruct (Hstats m a E) as (? & ? & ? & ?). lra.
  - unfold overall_of.
    destruct (od_get "overall_score" agg) as [[a|q]|] eqn:E; try lra.
    now apply Hoverall.
Qed.

Lemma descending_head {A : Type} (key : A -> Q) (l : list A) (top e : A) :
  descending key l -> head l = Some top -> In e l -> key e <= key top.
Proof.
  intros Hd Hh He. destruct l as [|x l]; [discriminate|].
  injection Hh as ->. destruct He as [->|He]; [lra|].
  apply list_elem_of_In, list_elem_of_lookup_1 in He as [j Hj].
  apply (Hd 0%nat (Datatypes.S j) top e); [reflexivity | exact Hj | lia].
Qed.

(** X10: in the summary of a run every score of every ranking lies in
    [0,100], and the best performer of a metric is a model of [results]
    whose score in the ranking of the metric is not exceeded by any other
    model's. *)
Theorem ranking_scores_and_best_performer
    (self : runner) (benchmark_id : string) (now : Q)
    (prompts model_ids : list string) (metrics : option (list string)) :
  ~ In "overall_score" (effective_metrics metrics) ->
  exists run self',
    run_benchmark self benchmark_id now prompts model_ids metrics = inr (run, self')
    /\ (forall name R e,
          od_get name (rankings (br_summary run)) = Some R -> In e R ->
          0 <= re_score e <= 100)
    /\ (forall metric best,
          od_get metric (best_performers (br_summary run)) = Some best ->
          In metric (effective_metrics metrics)
          /\ In best (od_keys (br_results run))
          /\ exists R top,
               od_get metric (rankings (br_summary run)) = Some R
               /\ head R = Some top
               /\ re_model_id top = best
               /\ forall e, In e R -> re_score e <= re_score top).
Proof.
  intros Hno.
  destruct (run_benchmark_ok self benchmark_id now prompts model_ids metrics Hno)
    as (results & _ & Hkeys & Hall & Hrun).
  assert (Hnd : NoDup (od_keys results)).
  { rewrite Hkeys. apply fresh_keys_NoDup. }
  assert (Hentry : forall f e, In e (ranking_by f results) ->
            exists kv agg, In kv results
                           /\ mr_aggregated_metrics kv.2 = Some agg
                           /\ re_score e = f agg).
  { intros f e He.
    destruct (ranking_entry_model f _ _ _ _ e Hnd Hall He)
      as (mr & agg & Hmr & Hagg & Hs).
    exists (re_model_id e, mr), agg. split; [now apply od_get_Some_In|].
    now split. }
  assert (Hrange : forall kv agg, In kv results ->
            mr_aggregated_metrics kv.2 = Some agg ->
            (forall m, 0 <= average_of m agg <= 100)
            /\ 0 <= overall_of agg <= 100).
  { intros kv agg Hin Hagg. rewrite Forall_forall in Hall.
    apply list_elem_of_In in Hin.
    exact (entry_scores_range _ _ _ kv agg (Hall kv Hin) Hagg). }
  eexists _, _. split; [exact Hrun|].
  cbn [run_of br_summary br_results]. split.
  - intros name R e HR He.
    destruct results as [|kv0 results'] eqn:Eres; [discriminate|].
    rewrite <- Eres in *.
    rewrite summary_rankings in HR by (rewrite Eres; discriminate).
    destruct (mem name (effective_metrics metrics)).
    + injection HR as <-.
      destruct (Hentry _ e He) as (kv & agg & Hin & Hagg & ->).
      apply (Hrange kv agg Hin Hagg).
    + destruct (String.eqb name "overall"); [|discriminate].
      injection HR as <-.
      destruct (Hentry _ e He) as (kv & agg & Hin & Hagg & ->).
      apply (Hrange kv agg Hin Hagg).
  - intros metric best Hbest.
    destruct results as [|kv0 results'] eqn:Eres; [discriminate|].
    rewrite <- Eres in *.
    assert (Hne : results <> []) by (rewrite Eres; discriminate).
    rewrite summary_best_performers in Hbest by exact Hne.
    destruct (mem metric (effective_metrics metrics)) eqn:Em; [|discriminate].
    destruct (head (ranking_by (average_of metric) results)) as [top|] eqn:Eh;
      [|discriminate].
    injection Hbest as <-.
    split; [now apply mem_In|]. split.
    + apply list_elem_of_In.
      rewrite <- (ranking_by_ids (average_of metric) results).
      apply list_elem_of_In, in_map. now apply head_In.
    + exists (ranking_by (average_of metric) results), top.
      split; [rewrite summary_rankings by exact Hne; now rewrite Em|].
      split; [exact Eh|]. split; [reflexivity|].
      intros e He.
      exact (descending_head re_score _ top e
               (ranking_by_descending _ _) Eh He).
Qed.

(** The theorem applies to a run over a working and a failing model. *)
Lemma ranking_scores_and_best_performer_example :
  exists run self',
    run_benchmark Examples.fresh_runner "run-1" 0 ["p0"; "p1"] ["bad"; "good"] None
    = inr (run, self')
    /\ (forall name R e,
          od_get name (rankings (br_summary run)) = Some R -> In e R ->
          0 <= re_score e <= 100)
    /\ (forall metric best,
          od_get metric (best_performers (br_summary run)) = Some best ->
          In metric (effective_metrics None)
          /\ In best (od_keys (br_results run))
          /\ exists R top,
               od_get metric (rankings (br_summary run)) = Some R
               /\ head R = Some top
               /\ re_model_id top = best
               /\ forall e, In e R -> re_score e <= re_score top).
Proof.
  apply (ranking_scores_and_best_performer
           Examples.fresh_runner "run-1" 0 ["p0"; "p1"] ["bad"; "good"] None).
  vm_compute. intuition discriminate.
Defined.

(** In that run the working model is the best performer of every metric,
    although the failing model comes first in the request. *)
Example best_performers_of_example :
  exists run self',
    run_benchmark Examples.fresh_runner "run-1" 0 ["p0"; "p1"] ["bad"; "good"] None
    = inr (run, self')
    /\ best_performers (br_summary run)
       = [("latency", "good"); ("cost", "good"); ("quality", "good")].
Proof.
  do 2 eexists. split; [vm_compute; reflexivity | reflexivity].
Qed.

End RunScores.

(** ** Repeated and unresolvable model ids *)

Section RequestedIds.

Local Open Scope string_scope.

Lemma fresh_keys_fixed (keep : string -> bool) (seen k : list string) :
  NoDup k ->
  (forall x, In x k -> keep x = true /\ ~ In x seen) ->
  fresh_keys keep seen k = k.
Proof.
  revert seen. induction k as [|x k IH]; intros seen Hnd H; [reflexivity|].
  apply NoDup_cons in Hnd as [Hx Hnd].
  destruct (H x) as [Hk Hs]; [now left|].
  cbn [fresh_keys]. rewrite Hk, (proj2 (mem_false _ _) Hs). cbn [andb negb].
  f_equal. apply IH; [exact Hnd|].
  intros y Hy. destruct (H y) as [Hky Hsy]; [now right|].
  split; [exact Hky|]. rewrite in_app_iff. simpl.
  intros [Hin | [<- | []]]; [contradiction|].
  apply Hx. now apply list_elem_of_In.
Qed.

Lemma resolved_ids_idempotent (models : gmap string model_config)
    (model_ids : list string) :
  resolved_ids models (resolved_ids models model_ids)
  = resolved_ids models model_ids.
Proof.
  unfold resolved_ids at 1. apply fresh_keys_fixed.
  - apply fresh_keys_NoDup.
  - intros x Hx. apply resolved_ids_In in Hx as [_ Hx]. split; [exact Hx | tauto].
Qed.

(** The entries of [results] are determined by its keys. *)
Lemma results_determined (models : gmap string model_config)
    (prompts metrics : list string) (r1 r2 : odict model_result) :
  od_keys r1 = od_keys r2 ->
  Forall (entry_ok models prompts metrics) r1 ->
  Forall (entry_ok models prompts metrics) r2 ->
  r1 = r2.
Proof.
  revert r2. induction r1 as [|[k mr] r1 IH]; intros [|[k' mr'] r2] Hk H1 H2;
    try discriminate; [reflexivity|].
  simpl in Hk. injection Hk as <- Hk.
  apply Forall_cons in H1 as [(c & Hc & Hrun) H1].
  apply Forall_cons in H2 as [(c' & Hc' & Hrun') H2].
  simpl in *. rewrite Hc in Hc'. injection Hc' as <-.
  rewrite Hrun in Hrun'. injection Hrun' as <-.
  f_equal. now apply IH.
Qed.

(** X11: a run over [model_ids] has the results and the summary of the run
    over the ids of [model_ids] that resolve, each taken once in the order
    of its first occurrence: naming a model twice, or naming a model that
    does not resolve, changes neither. *)
Theorem run_benchmark_ids_normalised
    (self : runner) (benchmark_id : string) (now : Q)
    (prompts model_ids : list string) (metrics : option (list string)) :
  ~ In "overall_score" (effective_metrics metrics) ->
  exists run run' self1 self2,
    run_benchmark self benchmark_id now prompts model_ids metrics
    = inr (run, self1)
    /\ run_benchmark self benchmark_id now prompts
         (resolved_ids (model_manager self) model_ids) metrics
       = inr (run', self2)
    /\ br_results run = br_results run'
    /\ br_summary run = br_summary run'.
Proof.
  intros Hno.
  destruct (run_benchmark_ok self benchmark_id now prompts model_ids metrics Hno)
    as (results & _ & Hkeys & Hall & Hrun).
  destruct (run_benchmark_ok self benchmark_id now prompts
              (resolved_ids (model_manager self) model_ids) metrics Hno)
    as (results' & _ & Hkeys' & Hall' & Hrun').
  rewrite resolved_ids_idempotent in Hkeys'.
  assert (E : results = results').
  { eapply results_determined; [congruence | exact Hall | exact Hall']. }
  subst results'.
  eexists _, _, _, _. split; [exact Hrun|]. split; [exact Hrun'|].
  split; reflexivity.
Qed.

(** The theorem applies to a request that names the failing model twice and
    an unknown model. *)
Lemma run_benchmark_ids_normalised_example :
  exists run run' self1 self2,
    run_benchmark Examples.fresh_runner "run-1" 0 ["p0"]
      ["bad"; "nope"; "good"; "bad"] None
    = inr (run, self1)
    /\ run_benchmark Examples.fresh_runner "run-1" 0 ["p0"]
         (resolved_ids (model_manager Examples.fresh_runner)
            ["bad"; "nope"; "good"; "bad"]) None
       = inr (run', self2)
    /\ br_results run = br_results run'
    /\ br_summary run = br_summary run'.
Proof.
  apply (run_benchmark_ids_normalised Examples.fresh_runner "run-1" 0 ["p0"]
           ["bad"; "nope"; "good"; "bad"] None).
  vm_compute. intuition discriminate.
Defined.

End RequestedIds.

(** ** The store of results *)

Section ResultStore.

Local Open Scope string_scope.

(** X12: two runs in a row with different identifiers are both stored:
    after the second, [get_results] returns each run under its identifier and
    what it returned before the two runs under every other identifier; the
    registry of the runner is unchanged. *)
Theorem runs_are_stored
    (self : runner) (id1 id2 : string) (now1 now2 : Q)
    (prompts1 prompts2 model_ids1 model_ids2 : list string)
    (metrics1 metrics2 : option (list string)) :
  id1 <> id2 ->
  ~ In "overall_score" (effective_metrics metrics1) ->
  ~ In "overall_score" (effective_metrics metrics2) ->
  exists run1 self1 run2 self2,
    run_benchmark self id1 now1 prompts1 model_ids1 metrics1 = inr (run1, self1)
    /\ run_benchmark self1 id2 now2 prompts2 model_ids2 metrics2
       = inr (run2, self2)
    /\ get_results self2 id1 = Some run1
    /\ get_results self2 id2 = Some run2
    /\ br_id run1 = id1 /\ br_id run2 = id2
    /\ (forall id, id <> id1 -> id <> id2 ->
          get_results self2 id = get_results self id)
    /\ model_manager self2 = model_manager self.
Proof.
  intros Hne Hno1 Hno2.
  destruct (run_benchmark_ok self id1 now1 prompts1 model_ids1 metrics1 Hno1)
    as (results1 & _ & _ & _ & Hrun1).
  eexists _, _. 
  destruct (run_benchmark_ok
              {| model_manager := model_manager self;
                 results_store :=
                   <[id1 := run_of id1 now1 prompts1 model_ids1 metrics1 results1]>
                     (results_store self) |}
              id2 now2 prompts2 model_ids2 metrics2 Hno2)
    as (results2 & _ & _ & _ & Hrun2).
  eexists _, _. split; [exact Hrun1|]. split; [exact Hrun2|].
  unfold get_results. cbn [results_store model_manager run_of br_id].
  split; [rewrite lookup_insert_ne by congruence; apply lookup_insert_eq|].
  split; [apply lookup_insert_eq|].
  split; [reflexivity|]. split; [reflexivity|].
  split; [|reflexivity].
  intros id H1 H2. rewrite !lookup_insert_ne by congruence. reflexivity.
Qed.

(** The theorem applies to two runs on a runner that already stores a run,
    which stays stored. *)
Lemma runs_are_stored_example :
  exists run1 self1 run2 self2,
    run_benchmark Examples.used_runner "run-1" 2 ["p0"] ["good"] None
    = inr (run1, self1)
    /\ run_benchmark self1 "run-2" 3 [] ["bad"] None = inr (run2, self2)
    /\ get_results self2 "run-1" = Some run1
    /\ get_results self2 "run-2" = Some run2
    /\ br_id run1 = "run-1" /\ br_id run2 = "run-2"
    /\ (forall id, id <> "run-1" -> id <> "run-2" ->
          get_results self2 id = get_results Examples.used_runner id)
    /\ model_manager self2 = model_manager Examples.used_runner.
Proof.
  apply (runs_are_stored Examples.used_runner "run-1" "run-2" 2 3
           ["p0"] [] ["good"] ["bad"] None None).
  - discriminate.
  - vm_compute. intuition discriminate.
  - vm_compute. intuition discriminate.
Defined.

End ResultStore.

(** ** The enabled flag *)

Section EnabledFlag.

Local Open Scope string_scope.

Lemma get_model_connector_enabled (b : bool) (models : gmap string model_config)
    (model_id : string) :
  get_model_connector (with_enabled b <$> models) model_id
  = get_model_connector models model_id.
Proof.
  unfold get_model_connector, _create_connector.
  rewrite lookup_fmap. now destruct (models !! model_id).
Qed.

Lemma for_each_ext {A S : Type} (f g : S -> A -> result S) (l : list A) (s : S) :
  (forall s x, f s x = g s x) -> for_each l f s = for_each l g s.
Proof.
  intros H. revert s. induction l as [|x l IH]; intros s; simpl; [reflexivity|].
  rewrite H. destruct (g s x); simpl; [reflexivity | apply IH].
Qed.

(** X13: the connector lookup does not read the ['enabled'] flag of a
    registered model: setting the flag of every model, to false or to true,
    changes no lookup, and a run on the runner so changed returns the same
    run. *)
Theorem enabled_flag_ignored
    (b : bool) (self : runner) (benchmark_id : string) (now : Q)
    (prompts model_ids : list string) (metrics : option (list string)) :
  ~ In "overall_score" (effective_metrics metrics) ->
  (forall model_id,
      get_model_connector (model_manager (all_enabled b self)) model_id
      = get_model_connector (model_manager self) model_id)
  /\ exists run self1 self2,
      run_benchmark self benchmark_id now prompts model_ids metrics
      = inr (run, self1)
      /\ run_benchmark (all_enabled b self) benchmark_id now prompts model_ids
           metrics
         = inr (run, self2).
Proof.
  intros Hno. split; [intros; apply get_model_connector_enabled|].
  destruct (run_benchmark_ok self benchmark_id now prompts model_ids metrics Hno)
    as (results & Hloop & _ & _ & Hrun).
  destruct (run_benchmark_ok (all_enabled b self) benchmark_id now prompts
              model_ids metrics Hno)
    as (results' & Hloop' & _ & _ & Hrun').
  rewrite (for_each_ext _ (run_model (model_manager self) prompts
                             (effective_metrics metrics))) in Hloop'.
  - rewrite Hloop in Hloop'. injection Hloop' as <-.
    eexists _, _, _. split; [exact Hrun | exact Hrun'].
  - intros s x. unfold run_model. cbn [all_enabled model_manager].
    now rewrite get_model_connector_enabled.
Qed.

(** The theorem applies to the example registry with every model
    disabled. *)
Lemma enabled_flag_ignored_example :
  (forall model_id,
      get_model_connector
        (model_manager (all_enabled false Examples.fresh_runner)) model_id
      = get_model_connector (model_manager Examples.fresh_runner) model_id)
  /\ exists run self1 self2,
      run_benchmark Examples.fresh_runner "run-1" 0 ["p0"] ["good"] None
      = inr (run, self1)
      /\ run_benchmark (all_enabled false Examples.fresh_runner) "run-1" 0
           ["p0"] ["good"] None
         = inr (run, self2).
Proof.
  apply (enabled_flag_ignored false Examples.fresh_runner "run-1" 0
           ["p0"] ["good"] None).
  vm_compute. intuition discriminate.
Defined.

End EnabledFlag.

(** ** Custom models *)

Section AddModel.

Local Open Scope string_scope.

Variable GPTConnector : string -> string -> result connector.

(** X14: [add_model] without a name fails and leaves the registry as it
    is. With a name it reports success under the id ["custom_" ++ name],
    whatever the API key; the lookup of that id then yields the connector the
    class builds from the key and the name when the key is not empty and the
    class does not raise, and nothing when the key is absent or empty; the
    lookup of every other id is unchanged. *)
Theorem add_model_lookup (models : gmap string model_config)
    (request : add_request) :
  (req_name request = None ->
   add_model GPTConnector models request = (Failed "'name'", models))
  /\ forall name, req_name request = Some name ->
       exists models',
         add_model GPTConnector models request = (Added ("custom_" ++ name), models')
         /\ get_model_connector models' ("custom_" ++ name)
            = match req_api_key request with
              | Some (String _ _ as key) =>
                  match GPTConnector key name with
                  | inr c => Some c
                  | inl _ => None
                  end
              | _ => None
              end
         /\ forall other, other <> "custom_" ++ name ->
              get_model_connector models' other
              = get_model_connector models other.
Proof.
  split.
  - intros H. unfold add_model. now rewrite H.
  - intros name H. unfold add_model. rewrite H.
    eexists. split; [reflexivity|]. split.
    + unfold get_model_connector, _create_connector.
      rewrite lookup_insert_eq. cbn [api_key model_name connector_class default].
      destruct (req_api_key request) as [[|c s]|]; reflexivity.
    + intros other Hne. unfold get_model_connector, _create_connector.
      now rewrite lookup_insert_ne by congruence.
Qed.

End AddModel.

(** A custom model added with a key resolves and can be benchmarked; added
    without a key it is registered and skipped. *)
Example add_model_then_run :
  let cls := fun _ _ : string => inr Examples.working_connector in
  let with_key :=
    add_model cls ∅
      {| req_name := Some "mine"%string; req_api_key := Some "k"%string;
         req_endpoint := None |} in
  let without_key :=
    add_model cls ∅
      {| req_name := Some "mine"%string; req_api_key := None;
         req_endpoint := None |} in
  with_key.1 = Added "custom_mine"
  /\ without_key.1 = Added "custom_mine"
  /\ (exists run self',
        run_benchmark {| model_manager := with_key.2; results_store := ∅ |}
          "run-1" 0 ["p0"%string] ["custom_mine"%string] None = inr (run, self')
        /\ od_keys (br_results run) = ["custom_mine"%string])
  /\ (exists run self',
        run_benchmark {| model_manager := without_key.2; results_store := ∅ |}
          "run-1" 0 ["p0"%string] ["custom_mine"%string] None = inr (run, self')
        /\ br_results run = []).
Proof.
  cbv zeta. split; [reflexivity|]. split; [reflexivity|]. split.
  - do 2 eexists. split; [vm_compute; reflexivity | reflexivity].
  - do 2 eexists. split; [vm_compute; reflexivity | reflexivity].
Qed.

(** ** The HTTP handlers *)

Section Handlers.

Local Open Scope string_scope.



End Handlers.

(** ** The cost entry of a prompt result *)

Section CostEntry.

Local Open Scope Q_scope.
Local Open Scope string_scope.

(** X16: when the cost metric is requested, the cost entry of a prompt
    result records the tokens the connector reports (0 when it reports none)
    and, as raw value, a thousandth of them times the cost per thousand
    tokens of the model (0 when the model states none); with [p] the product
    of the tokens and that cost, the score is 100 for [p <= 0], [100 - p] for
    [p] between 0 and 100, and 0 from 100 on. *)
Theorem prompt_cost_entry (c : connector) (prompt : string)
    (metrics : list string) (info : model_info) :
  In "cost" metrics ->
  exists r d,
    _evaluate_single_prompt c prompt metrics info = inr r
    /\ od_get "cost" (pr_metrics r) = Some d
    /\ md_tokens_used d
       = Some (default 0%Z (rd_tokens_used (generate_response c prompt)))
    /\ md_raw_value d
       = Some (inject_Z (default 0%Z (rd_tokens_used (generate_response c prompt)))
               / 1000 * default 0 (mi_cost_per_1k_tokens info))
    /\ let p := inject_Z (default 0%Z (rd_tokens_used (generate_response c prompt)))
                * default 0 (mi_cost_per_1k_tokens info) in
       (p <= 0 -> md_score d == 100)
       /\ (0 < p -> p < 100 -> md_score d == 100 - p)
       /\ (100 <= p -> md_score d == 0).
Proof.
  intros Hin. apply mem_In in Hin.
  unfold _evaluate_single_prompt. rewrite Hin.
  set (tokens := default 0%Z (rd_tokens_used (generate_response c prompt))).
  set (cpk := default 0 (mi_cost_per_1k_tokens info)).
  assert (Hcost : inject_Z tokens / 1000 * cpk
                  == inject_Z tokens * cpk * (1 # 1000)).
  { unfold Qdiv. change (/ 1000) with (1 # 1000). ring. }
  pose proof (cost_cases (inject_Z tokens / 1000 * cpk)) as Hcases.
  destruct (calculate_cost_score (inject_Z tokens / 1000 * cpk) default_max_cost)
    as [e|qc] eqn:Ec.
  { exfalso. destruct Hcases as [[_ H] | [(_ & _ & H) | [_ H]]]; exact H. }
  unfold returns in Hcases.
  destruct (quality_bounds (get_response (generate_response c prompt)))
    as (qq & -> & _).
  destruct (context_bounds (length (split prompt))
              (default 4096%Z (mi_max_context_length info)))
    as (qu & -> & _).
  destruct (mem "latency" metrics), (mem "quality" metrics),
    (mem "context_utilization" metrics);
    eexists _, _; (split; [reflexivity|]); (split; [reflexivity|]);
    (split; [reflexivity|]); (split; [reflexivity|]);
    cbn [md_score]; cbv zeta; fold tokens cpk;
    (repeat split; intros;
     destruct Hcases as [[H1 H2] | [(H1 & H2 & H3) | [H1 H2]]]; lra).
Qed.

(** The theorem applies to the default metrics. *)
Lemma prompt_cost_entry_example :
  exists r d,
    _evaluate_single_prompt Examples.working_connector "p0" default_metrics
      Examples.info = inr r
    /\ od_get "cost" (pr_metrics r) = Some d
    /\ md_tokens_used d = Some 150%Z
    /\ returns (inr (md_score d)) 98.5.
Proof.
  destruct (prompt_cost_entry Examples.working_connector "p0" default_metrics
              Examples.info)
    as (r & d & Hr & Hd & Ht & _ & _ & Hs & _).
  - vm_compute. tauto.
  - exists r, d. split; [exact Hr|]. split; [exact Hd|]. split; [exact Ht|].
    unfold returns. rewrite Hs; now vm_compute.
Defined.

End CostEntry.
